(** * Webhook relay handler (src/api/webhook.ts)

    A shallow embedding of the request handler that relays issue-tracker
    webhook events to a chat webhook, and the properties of its
    specification.

    Strings are byte strings.  The handler's network calls are recorded in
    a trace, so that "no outbound dispatch occurs" is a statement about the
    value the handler returns. *)

From Stdlib Require Import String Ascii List Bool Arith Lia.
From stdpp Require Import base option list strings gmap.
Import ListNotations.

Local Open Scope string_scope.
Local Open Scope list_scope.

(** ** JavaScript strings: [String.prototype.split] with a one-character
    separator *)

Module JsString.

(** [s.split(sep)]: the pieces of [s] between the occurrences of [sep].
    The result is never empty: [''.split('/')] is [['']]. *)
Fixpoint split (sep : ascii) (s : string) : list string :=
  match s with
  | EmptyString => [EmptyString]
  | String c rest =>
      if decide (c = sep) then EmptyString :: split sep rest
      else match split sep rest with
           | [] => [String c EmptyString]
           | piece :: pieces => String c piece :: pieces
           end
  end.

(** [pieces.join(sep)] *)
Fixpoint join (sep : ascii) (pieces : list string) : string :=
  match pieces with
  | [] => EmptyString
  | [piece] => piece
  | piece :: rest => piece +:+ String sep (join sep rest)
  end.

(** Does the character occur in the string? *)
Fixpoint occurs (c : ascii) (s : string) : bool :=
  match s with
  | EmptyString => false
  | String d rest => if decide (d = c) then true else occurs c rest
  end.

(** The characters of [s] before the first occurrence of [c] (all of [s]
    when [c] does not occur). *)
Fixpoint before (c : ascii) (s : string) : string :=
  match s with
  | EmptyString => EmptyString
  | String d rest => if decide (d = c) then EmptyString else String d (before c rest)
  end.

End JsString.

(** ** JavaScript values met by the handler *)

Module Js.

(** What a header, a query parameter or a property read can yield when the
    declared type is [string | string[] | undefined]. *)
Inductive StringOrArray :=
| One (s : string)
| Many (l : list string).

(** Template-literal conversion [`${v}`] of such a value; an array is joined
    with commas and [undefined] prints as the word. *)
Fixpoint commaJoin (l : list string) : string :=
  match l with
  | [] => ""
  | [s] => s
  | s :: rest => s +:+ "," +:+ commaJoin rest
  end.

Definition show (v : option StringOrArray) : string :=
  match v with
  | None => "undefined"
  | Some (One s) => s
  | Some (Many l) => commaJoin l
  end.

(** [v || ''] on a header value: [undefined] and the empty string are the
    falsy ones, every array is truthy. *)
Definition orEmpty (v : option StringOrArray) : StringOrArray :=
  match v with
  | None => One ""
  | Some (One "") => One ""
  | Some other => other
  end.

(** Truthiness of a string that may be absent. *)
Definition truthy (v : option string) : bool :=
  match v with
  | None => false
  | Some s => negb (String.eqb s "")
  end.

(** The result of reading a property of an object literal whose own
    properties are strings: [undefined], an own string, or a member
    inherited from [Object.prototype] (kept with its string conversion). *)
Inductive Property :=
| Undefined
| Own (s : string)
| Inherited (text : string).

(** The members every object literal inherits, with what [String(member)]
    gives: the functions print as native code, [__proto__] reads
    [Object.prototype] itself. *)
Definition nativeCode (name : string) : string :=
  "function " +:+ name +:+ "() { [native code] }".

Definition OBJECT_PROTOTYPE : gmap string string :=
  list_to_map
    [ ("constructor", nativeCode "Object");
      ("hasOwnProperty", nativeCode "hasOwnProperty");
      ("isPrototypeOf", nativeCode "isPrototypeOf");
      ("propertyIsEnumerable", nativeCode "propertyIsEnumerable");
      ("toLocaleString", nativeCode "toLocaleString");
      ("toString", nativeCode "toString");
      ("valueOf", nativeCode "valueOf");
      ("__defineGetter__", nativeCode "__defineGetter__");
      ("__defineSetter__", nativeCode "__defineSetter__");
      ("__lookupGetter__", nativeCode "__lookupGetter__");
      ("__lookupSetter__", nativeCode "__lookupSetter__");
      ("__proto__", "[object Object]") ].

(** [o[k]]: own properties first, then the prototype. *)
Definition get (o : gmap string string) (k : string) : Property :=
  match o !! k with
  | Some v => Own v
  | None =>
      match OBJECT_PROTOTYPE !! k with
      | Some text => Inherited text
      | None => Undefined
      end
  end.

Definition isTruthy (p : Property) : bool :=
  match p with
  | Undefined => false
  | Own s => negb (String.eqb s "")
  | Inherited _ => true
  end.

Definition toString (p : Property) : string :=
  match p with
  | Undefined => "undefined"
  | Own s => s
  | Inherited text => text
  end.

(** The instant [new Date(text)] denotes.  A payload carries its rendering
    by the runtime (the ISO text of the instant), not the text it was made
    from. *)
Inductive Date := DateOf (text : string).

(** [s.replace(c, '')]: the string without the first occurrence of [c]. *)
Fixpoint removeFirst (c : ascii) (s : string) : string :=
  match s with
  | EmptyString => EmptyString
  | String d rest => if decide (d = c) then rest else String d (removeFirst c rest)
  end.

(** [s] without the prefix [p], when it starts with it. *)
Fixpoint stripPrefix (p s : string) : option string :=
  match p, s with
  | EmptyString, _ => Some s
  | String a p', String b s' => if decide (a = b) then stripPrefix p' s' else None
  | String _ _, EmptyString => None
  end.

(** The white space and line terminators that [parseInt] skips, in UTF-8:
    tab, line feed, vertical tab, form feed, carriage return, space, U+00A0,
    U+1680, U+2000 to U+200A, U+2028, U+2029, U+202F, U+205F, U+3000 and
    U+FEFF. *)
Definition bytes (codes : list nat) : string :=
  string_of_list_ascii (map ascii_of_nat codes).

Definition WHITE_SPACE : list string :=
  map bytes
    [ [9]; [10]; [11]; [12]; [13]; [32]; [194; 160]; [225; 154; 128];
      [226; 128; 128]; [226; 128; 129]; [226; 128; 130]; [226; 128; 131];
      [226; 128; 132]; [226; 128; 133]; [226; 128; 134]; [226; 128; 135];
      [226; 128; 136]; [226; 128; 137]; [226; 128; 138]; [226; 128; 168];
      [226; 128; 169]; [226; 128; 175]; [226; 129; 159]; [227; 128; 128];
      [239; 187; 191] ].

Fixpoint firstStripped (prefixes : list string) (s : string) : option string :=
  match prefixes with
  | [] => None
  | p :: rest =>
      match stripPrefix p s with
      | Some s' => Some s'
      | None => firstStripped rest s
      end
  end.

Fixpoint trimStartWithin (fuel : nat) (s : string) : string :=
  match fuel with
  | O => s
  | S fuel' =>
      match firstStripped WHITE_SPACE s with
      | Some s' => trimStartWithin fuel' s'
      | None => s
      end
  end.

(** [s.trimStart()]; each step removes at least one byte. *)
Definition trimStart (s : string) : string := trimStartWithin (String.length s) s.

Definition hexDigit (c : ascii) : option Z :=
  let n := nat_of_ascii c in
  if (48 <=? n)%nat && (n <=? 57)%nat then Some (Z.of_nat (n - 48))
  else if (65 <=? n)%nat && (n <=? 70)%nat then Some (Z.of_nat (n - 55))
  else if (97 <=? n)%nat && (n <=? 102)%nat then Some (Z.of_nat (n - 87))
  else None.

(** The value of the longest prefix of hexadecimal digits, if there is a
    digit at all. *)
Fixpoint hexPrefix (acc : option Z) (s : string) : option Z :=
  match s with
  | EmptyString => acc
  | String c rest =>
      match hexDigit c with
      | Some d => hexPrefix (Some (16 * default 0%Z acc + d)%Z) rest
      | None => acc
      end
  end.

(** [parseInt(s, 16)]: leading white space, a sign and a [0x] prefix are
    skipped, then the longest run of hexadecimal digits is read; [None] is
    [NaN].  The exact integer stands for the floating-point result; they
    fall on the same side of every bound the handler's libraries test. *)
Definition parseInt16 (s : string) : option Z :=
  let s := trimStart s in
  let '(sign, s) :=
    match s with
    | String "-" rest => ((-1)%Z, rest)
    | String "+" rest => (1%Z, rest)
    | _ => (1%Z, s)
    end in
  let s :=
    match s with
    | String "0" (String "x" rest) | String "0" (String "X" rest) => rest
    | _ => s
    end in
  (fun n => (sign * n)%Z) <$> hexPrefix None s.

(** A parsed JSON document, the shape of [req.body]. *)
#[local] Unset Elimination Schemes.
Inductive Json :=
| JNull
| JBool (b : bool)
| JNumber (n : Z)
| JString (s : string)
| JArray (items : list Json)
| JObject (members : list (string * Json)).
#[local] Set Elimination Schemes.

End Js.

(** ** The issue tracker's client, as far as the handler uses it *)

Module User.
Record t := mk {
  id : string;
  name : string;
  displayName : string;
  url : string;
  avatarUrl : option string
}.
End User.

Module Issue.
(** The issue as the client returns it, with the id of its assignee if it
    has one.  Its [assignee] property is a getter: without an id (or with an
    empty one) it gives [undefined]; otherwise every read of it sends a user
    query for that id through the same client and gives the pending
    result. *)
Record t := mk { assigneeId : option string }.

(** The id that a read of [assignee] queries, if it queries. *)
Definition assignee (issue : t) : option string :=
  match assigneeId issue with
  | Some "" | None => None
  | Some id => Some id
  end.
End Issue.

(** ** The validation library, as far as the handler uses it *)

Module Zod.

Record Issue := mkIssue {
  code : string;
  expected : string;
  received : string;
  path : list string;
  message : string
}.

(** [z.string()] on one key of an object: no issue for a string, an
    [invalid_type] issue naming the key otherwise. *)
Definition checkString (key : string) (v : option Js.StringOrArray) : list Issue :=
  match v with
  | Some (Js.One _) => []
  | Some (Js.Many _) =>
      [mkIssue "invalid_type" "string" "array" [key] "Expected string, received array"]
  | None =>
      [mkIssue "invalid_type" "string" "undefined" [key] "Required"]
  end.

(** [z.enum(options).safeParse(v).success] *)
Definition enumAccepts (options : list string) (v : Js.StringOrArray) : bool :=
  match v with
  | Js.One s => bool_decide (s ∈ options)
  | Js.Many _ => false
  end.

End Zod.

(** ** The validated event *)

Module Schema.

(** Modelled from the spec: the enums [Model] and [Action] of
    lib/schema/utils and the event type that [SCHEMA] of lib/schema
    produces, neither of which is among the sources.  The fields are the ones
    the handler reads; the entity types are Issue and Comment, the actions
    Create, Update and others the handler does not name. *)
Inductive Model := ISSUE | COMMENT.

Inductive Action := CREATE | UPDATE | OTHER (name : string).

Record Team := mkTeam { team_key : string; team_name : string }.
Record State := mkState { state_name : string; state_color : string }.
Record AssigneeRef := mkAssigneeRef { assignee_id : string }.

Record IssueData := mkIssueData {
  creatorId : string;
  title : string;
  team : Team;
  state : State;
  assignee : option AssigneeRef;
  description : option string
}.

Record UpdatedFrom := mkUpdatedFrom { stateId : option string }.

Record IssueRef := mkIssueRef { issue_id : string; issue_title : string }.

Record CommentData := mkCommentData {
  userId : string;
  issue : IssueRef;
  body : string
}.

Inductive Event :=
| IssueEvent (action : Action) (createdAt url : string)
    (data : IssueData) (updatedFrom : option UpdatedFrom)
| CommentEvent (action : Action) (createdAt url : string) (data : CommentData).

Definition type (e : Event) : Model :=
  match e with
  | IssueEvent _ _ _ _ _ => ISSUE
  | CommentEvent _ _ _ _ => COMMENT
  end.

Definition action (e : Event) : Action :=
  match e with
  | IssueEvent a _ _ _ _ | CommentEvent a _ _ _ => a
  end.

Definition createdAt (e : Event) : string :=
  match e with
  | IssueEvent _ c _ _ _ | CommentEvent _ c _ _ => c
  end.

Definition url (e : Event) : string :=
  match e with
  | IssueEvent _ _ u _ _ | CommentEvent _ _ u _ => u
  end.

#[global] Instance Action_eq_dec : EqDecision Action.
Proof. solve_decision. Defined.

(** [body.updatedFrom?.stateId] as a condition *)
Definition statusChanged (updatedFrom : option UpdatedFrom) : bool :=
  match updatedFrom with
  | None => false
  | Some u => Js.truthy (stateId u)
  end.

End Schema.

(** ** The chat message *)

Module Embed.

Record Field := mkField { name : string; value : string; inline : bool }.

Record Footer := mkFooter { text : string; iconURL : option string }.

(** What the builder of the chat library throws. *)
Inductive Failure :=
| RangeError (code : string)
| TypeError (code : string).

(** A resolved color: a number, or, for a color name that is the name of a
    member the table of names inherits, that member (with its string
    conversion), which passes the library's checks unchanged. *)
Inductive Color :=
| Rgb (n : Z)
| Member (text : string).

(** The color names of the library (version 13). *)
Definition COLORS : gmap string Z :=
  list_to_map
    [ ("DEFAULT", 0); ("WHITE", 16777215); ("AQUA", 1752220); ("GREEN", 5763719);
      ("BLUE", 3447003); ("YELLOW", 16705372); ("PURPLE", 10181046);
      ("LUMINOUS_VIVID_PINK", 15277667); ("FUCHSIA", 15418782); ("GOLD", 15844367);
      ("ORANGE", 15105570); ("RED", 15548997); ("GREY", 9807270); ("NAVY", 3426654);
      ("DARK_AQUA", 1146986); ("DARK_GREEN", 2067276); ("DARK_BLUE", 2123412);
      ("DARK_PURPLE", 7419530); ("DARK_VIVID_PINK", 11342935); ("DARK_GOLD", 12745742);
      ("DARK_ORANGE", 11027200); ("DARK_RED", 10038562); ("DARK_GREY", 9936031);
      ("DARKER_GREY", 8359053); ("LIGHT_GREY", 12370112); ("DARK_NAVY", 2899536);
      ("BLURPLE", 5793266); ("GREYPLE", 10070709); ("DARK_BUT_NOT_BLACK", 2895667);
      ("NOT_QUITE_BLACK", 2303786) ]%Z.

Definition inRange (n : Z) : Failure + Color :=
  if (n <? 0)%Z || (16777215 <? n)%Z then inl (RangeError "COLOR_RANGE") else inr (Rgb n).

(** [Util.resolveColor(color)] on a string: the words RANDOM and DEFAULT, a
    name of the table, or else the hexadecimal number left when the first
    '#' is removed; a number out of range is a [RangeError], no number at
    all a [TypeError].  [random] is what [Math.random] picks, scaled. *)
Definition resolveColor (random : Z) (color : string) : Failure + Color :=
  if String.eqb color "RANDOM" then inr (Rgb (random `mod` 16777216)%Z)
  else if String.eqb color "DEFAULT" then inr (Rgb 0)
  else
    match COLORS !! color with
    | Some n => inRange n
    | None =>
        match Js.OBJECT_PROTOTYPE !! color with
        | Some text => inr (Member text)
        | None =>
            match Js.parseInt16 (Js.removeFirst "#" color) with
            | Some n => inRange n
            | None => inl (TypeError "COLOR_CONVERT")
            end
        end
    end.

(** The embed builder of the chat library, as the record of what was set.
    A setter that is given a string checks nothing but, for the name and the
    value of a field, that it is not empty. *)
Record t := mk {
  color : Color;
  timestamp : Js.Date;
  title : option string;
  url : option string;
  author : option string;
  footer : option Footer;
  fields : list Field;
  description : option string
}.

(** [new MessageEmbed({ color, timestamp })] *)
Definition new (random : Z) (c ts : string) : Failure + t :=
  match resolveColor random c with
  | inl failure => inl failure
  | inr resolved => inr (mk resolved (Js.DateOf ts) None None None None [] None)
  end.

Definition setTitle (s : string) (e : t) : t :=
  mk (color e) (timestamp e) (Some s) (url e) (author e) (footer e) (fields e) (description e).
Definition setURL (s : string) (e : t) : t :=
  mk (color e) (timestamp e) (title e) (Some s) (author e) (footer e) (fields e) (description e).
Definition setAuthor (s : string) (e : t) : t :=
  mk (color e) (timestamp e) (title e) (url e) (Some s) (footer e) (fields e) (description e).
Definition setFooter (f : Footer) (e : t) : t :=
  mk (color e) (timestamp e) (title e) (url e) (author e) (Some f) (fields e) (description e).
Definition setDescription (s : string) (e : t) : t :=
  mk (color e) (timestamp e) (title e) (url e) (author e) (footer e) (fields e) (Some s).

(** [normalizeField]: the name is checked before the value. *)
Definition normalizeField (f : Field) : Failure + Field :=
  if String.eqb (name f) "" then inl (RangeError "EMBED_FIELD_NAME")
  else if String.eqb (value f) "" then inl (RangeError "EMBED_FIELD_VALUE")
  else inr f.

Fixpoint normalizeFields (fs : list Field) : Failure + list Field :=
  match fs with
  | [] => inr []
  | f :: rest =>
      match normalizeField f with
      | inl failure => inl failure
      | inr f' =>
          match normalizeFields rest with
          | inl failure => inl failure
          | inr rest' => inr (f' :: rest')
          end
      end
  end.

(** [addFields(...fs)]: all the fields are checked, then appended. *)
Definition addFields (fs : list Field) (e : t) : Failure + t :=
  match normalizeFields fs with
  | inl failure => inl failure
  | inr checked =>
      inr (mk (color e) (timestamp e) (title e) (url e) (author e) (footer e)
             (fields e ++ checked) (description e))
  end.

Definition setColor (random : Z) (c : string) (e : t) : Failure + t :=
  match resolveColor random c with
  | inl failure => inl failure
  | inr resolved =>
      inr (mk resolved (timestamp e) (title e) (url e) (author e) (footer e)
             (fields e) (description e))
  end.

End Embed.

(** The JSON body posted to the chat webhook; an [undefined] content is
    left out by [JSON.stringify], which is [None] here. *)
Record Message := mkMessage {
  content : option string;
  username : string;
  avatar_url : string;
  embeds : list Embed.t
}.

(** ** Effects: thrown values, the trace of network calls, responses *)

(** Modelled from the spec: the class [HttpError] of lib/HttpError is not
    among the sources; it is an error that carries a message and the HTTP
    status code to answer with.  [ZodError] carries the validation issues;
    [OtherError] is any other thrown value (a [TypeError], a rejected
    network call). *)
Inductive Thrown :=
| HttpError (message : string) (statusCode : nat)
| ZodError (issues : list Zod.Issue)
| OtherError (description : string).

Inductive Call :=
| LinearUser (apiKey id : string)
| LinearIssue (apiKey id : string)
| Fetch (url : string) (msg : Message).

(** What became of a call: awaited and resolved, awaited and rejected, or
    started and never awaited. *)
Inductive Outcome :=
| Resolved (c : Call)
| Rejected (c : Call) (reason : string)
| Started (c : Call).

Abbreviation Trace := (list Outcome).

(** A computation of the handler: the calls it made, in order, and either
    the value it produced or what it threw. *)
Definition Run (A : Type) : Type := Trace * (Thrown + A).

Definition ret {A} (a : A) : Run A := ([], inr a).

Definition throw {A} (e : Thrown) : Run A := ([], inl e).

Definition bind {A B} (m : Run A) (k : A -> Run B) : Run B :=
  match m with
  | (t, inl e) => (t, inl e)
  | (t, inr a) => let '(t', r) := k a in (t ++ t', r)
  end.

Notation "'let*' x ':=' m 'in' k" := (bind m (fun x => k))
  (at level 10, x name, m at level 100, k at level 200).

(** [await] of a network call whose result the world decides. *)
Definition await {A} (c : Call) (result : string + A) : Run A :=
  match result with
  | inl reason => ([Rejected c reason], inl (OtherError reason))
  | inr a => ([Resolved c], inr a)
  end.

(** A call whose promise the handler drops. *)
Definition start (c : Call) : Run unit := ([Started c], inr tt).

(** What the chat library's builder throws reaches the handler as an
    ordinary error. *)
Definition built {A} (result : Embed.Failure + A) : Run A :=
  match result with
  | inl (Embed.RangeError code) => throw (OtherError ("RangeError [" +:+ code +:+ "]"))
  | inl (Embed.TypeError code) => throw (OtherError ("TypeError [" +:+ code +:+ "]"))
  | inr a => ret a
  end.

Definition isFetch (o : Outcome) : bool :=
  match o with
  | Resolved (Fetch _ _) | Rejected (Fetch _ _) _ | Started (Fetch _ _) => true
  | _ => false
  end.

Definition isLookup (c : Call) : bool :=
  match c with
  | Fetch _ _ => false
  | _ => true
  end.

(** The outbound dispatches of a trace. *)
Definition dispatches (t : Trace) : Trace := filter (fun o => isFetch o = true) t.

(** Some enrichment lookup of the trace was rejected. *)
Definition lookupFailed (t : Trace) : Prop :=
  exists c reason, isLookup c = true /\ Rejected c reason ∈ t.

Inductive ErrorField :=
| ErrNull
| ErrText (s : string)
| ErrIssues (issues : list Zod.Issue).

Record Envelope := mkEnvelope {
  success : bool;
  message : option string;
  error : ErrorField
}.

Record Response := mkResponse { statusCode : nat; envelope : Envelope }.

(** [res.send(e)] answers with the default status, 200. *)
Definition send (e : Envelope) : Response := mkResponse 200 e.

(** What the handler runs in: the process environment, the answers of the
    two remote services, and the number [Math.random] would give a color. *)
Record World := mkWorld {
  NODE_ENV : option string;
  linearUser : string -> string -> string + User.t;
  linearIssue : string -> string -> string + Issue.t;
  fetch : string -> Message -> string + unit;
  random : Z
}.

Record Request := mkRequest {
  method : option string;
  forwardedForHeader : option Js.StringOrArray;
  query : gmap string Js.StringOrArray;
  body : Js.Json
}.

(** ** Constants of the handler *)

Definition DISCORD_WEBHOOKS_URL : string := "https://discord.com/api/webhooks".

Definition WEBHOOK_USERNAME : string := "Linear".
Definition WEBHOOK_AVATAR_URL : string := "https://ldw.screfy.com/static/linear.png".

Definition LINEAR_BASE_URL : string := "https://linear.app".
Definition LINEAR_COLOR : string := "#5E6AD2".
Definition LINEAR_TRUSTED_IPS : list string := ["35.231.147.226"; "35.243.134.228"].

Record Credentials := mkCredentials {
  webhookId : string;
  webhookToken : string;
  linearToken : string
}.

(** [QUERY_SCHEMA.parse(query)]: an object schema checks every key and
    throws one error holding the issues of all of them. *)
Definition QUERY_SCHEMA_parse (q : gmap string Js.StringOrArray) : Run Credentials :=
  match q !! "webhookId", q !! "webhookToken", q !! "linearToken" with
  | Some (Js.One i), Some (Js.One t), Some (Js.One l) => ret (mkCredentials i t l)
  | i, t, l =>
      throw (ZodError (Zod.checkString "webhookId" i
                       ++ Zod.checkString "webhookToken" t
                       ++ Zod.checkString "linearToken" l))
  end.

Definition LINEAR_DISPLAY_NAME_TO_DISCORD_ID : gmap string string :=
  list_to_map
    [ ("kong", "152805815097491456");
      ("kyo.production99", "946380955088732160");
      ("james.lee", "289070271523061761");
      ("aki", "181394763683987457");
      ("junxiong.low", "611578492026486808") ].

(** The greeting that precedes a mention, byte for byte as in the source
    file. *)
Definition GREETING : string :=
  string_of_list_ascii
    (map ascii_of_nat [195; 176; 197; 184; 226; 128; 152; 226; 128; 185]).

(** [url.split('/')[5].split('#')[0]]: reading [split] of the absent sixth
    piece throws a [TypeError]. *)
Definition parseIdentifier (url : string) : Run string :=
  match JsString.split "/" url !! 5 with
  | None =>
      throw (OtherError "TypeError: Cannot read properties of undefined (reading 'split')")
  | Some piece =>
      match JsString.split "#" piece with
      | first :: _ => ret first
      | [] => ret "undefined"
      end
  end.

(** ** The handler *)

(** The variables the handler assigns while it classifies the event. *)
Record Locals := mkLocals {
  embed : Embed.t;
  assignee : option User.t;
  actionUser : option User.t
}.

(** The mention: [assignee && actionUser && assignee.id !== actionUser.id
    ? LINEAR_DISPLAY_NAME_TO_DISCORD_ID[assignee.displayName] : undefined] *)
Definition discordUserId (assignee actionUser : option User.t) : Js.Property :=
  match assignee, actionUser with
  | Some a, Some u =>
      if negb (String.eqb (User.id a) (User.id u))
      then Js.get LINEAR_DISPLAY_NAME_TO_DISCORD_ID (User.displayName a)
      else Js.Undefined
  | _, _ => Js.Undefined
  end.

Definition mention (id : string) : string := GREETING +:+ " <@" +:+ id +:+ ">".

Definition messageContent (p : Js.Property) : option string :=
  if Js.isTruthy p then Some (mention (Js.toString p)) else None.

Section Handler.

(** [SCHEMA.safeParse(req.body)] of lib/schema, which is not among the
    sources: the validated event, or nothing when no schema matches. *)
Variable SCHEMA_safeParse : Js.Json -> option Schema.Event.

Variable world : World.

Definition footerOf (u : User.t) : Embed.Footer :=
  Embed.mkFooter (User.name u) (User.avatarUrl u).

(** [new LinearClient({ apiKey })]: the client refuses to be built
    without a key. *)
Definition LinearClient_new (apiKey : string) : Run unit :=
  if String.eqb apiKey ""
  then throw (OtherError "Error: No accessToken or apiKey provided to the LinearClient")
  else ret tt.

(** [case Model.ISSUE] with [Action.CREATE] *)
Definition issueCreated (apiKey url : string) (data : Schema.IssueData)
    (st : Locals) : Run Locals :=
  let* actor := await (LinearUser apiKey (Schema.creatorId data))
                      (linearUser world apiKey (Schema.creatorId data)) in
  let* identifier := parseIdentifier url in
  let teamUrl := LINEAR_BASE_URL +:+ "/team/" +:+ Schema.team_key (Schema.team data) in
  let* e :=
    built
      (Embed.addFields
         [ Embed.mkField "Team"
             ("[" +:+ Schema.team_name (Schema.team data) +:+ "](" +:+ teamUrl +:+ ")") true;
           Embed.mkField "Status" (Schema.state_name (Schema.state data)) true ]
         (Embed.setFooter (footerOf actor)
            (Embed.setAuthor "New issue added"
               (Embed.setURL url
                  (Embed.setTitle (identifier +:+ " " +:+ Schema.title data) (embed st)))))) in
  let* st1 :=
    match Schema.assignee data with
    | Some ref =>
        let* a := await (LinearUser apiKey (Schema.assignee_id ref))
                        (linearUser world apiKey (Schema.assignee_id ref)) in
        let* e' :=
          built
            (Embed.addFields
               [ Embed.mkField "Assignee"
                   ("[" +:+ User.displayName a +:+ "](" +:+ User.url a +:+ ")") true ] e) in
        ret (mkLocals e' (Some a) (Some actor))
    | None => ret (mkLocals e (assignee st) (Some actor))
    end in
  if Js.truthy (Schema.description data)
  then ret (mkLocals (Embed.setDescription (default "" (Schema.description data)) (embed st1))
              (assignee st1) (actionUser st1))
  else ret st1.

(** [case Model.ISSUE] with [Action.UPDATE] and a changed status *)
Definition issueStatusChanged (apiKey url : string) (data : Schema.IssueData)
    (st : Locals) : Run Locals :=
  let* actor := await (LinearUser apiKey (Schema.creatorId data))
                      (linearUser world apiKey (Schema.creatorId data)) in
  let* identifier := parseIdentifier url in
  let* who :=
    match Schema.assignee data with
    | Some ref =>
        let* a := await (LinearUser apiKey (Schema.assignee_id ref))
                        (linearUser world apiKey (Schema.assignee_id ref)) in
        ret (Some a)
    | None => ret (assignee st)
    end in
  let* e :=
    built
      (Embed.setColor (random world) (Schema.state_color (Schema.state data))
         (Embed.setAuthor "Status changed"
            (Embed.setURL url
               (Embed.setTitle (identifier +:+ " " +:+ Schema.title data) (embed st))))) in
  ret (mkLocals
         (Embed.setDescription ("Status: **" +:+ Schema.state_name (Schema.state data) +:+ "**")
            (Embed.setFooter (footerOf actor) e))
         who (Some actor)).

(** [case Model.COMMENT] with [Action.CREATE].  The condition
    [linearIssue.assignee] is a first read of the getter, whose query is
    never awaited; the awaited one is the second read. *)
Definition commentCreated (apiKey url : string) (data : Schema.CommentData)
    (st : Locals) : Run Locals :=
  let* actor := await (LinearUser apiKey (Schema.userId data))
                      (linearUser world apiKey (Schema.userId data)) in
  let* linearIssue := await (LinearIssue apiKey (Schema.issue_id (Schema.issue data)))
                            (linearIssue world apiKey (Schema.issue_id (Schema.issue data))) in
  let* identifier := parseIdentifier url in
  let* who :=
    match Issue.assignee linearIssue with
    | Some id =>
        let* _ := start (LinearUser apiKey id) in
        let* a := await (LinearUser apiKey id) (linearUser world apiKey id) in
        ret (Some a)
    | None => ret (assignee st)
    end in
  ret (mkLocals
         (Embed.setDescription (Schema.body data)
            (Embed.setFooter (footerOf actor)
               (Embed.setAuthor "New comment"
                  (Embed.setURL url
                     (Embed.setTitle
                        (identifier +:+ " " +:+ Schema.issue_title (Schema.issue data))
                        (embed st))))))
         who (Some actor)).

(** [switch (body.type)] *)
Definition classify (apiKey : string) (event : Schema.Event) (st : Locals) : Run Locals :=
  match event with
  | Schema.IssueEvent action _ url data updatedFrom =>
      if decide (action = Schema.CREATE) then issueCreated apiKey url data st
      else if bool_decide (action = Schema.UPDATE) && Schema.statusChanged updatedFrom
      then issueStatusChanged apiKey url data st
      else ret st
  | Schema.CommentEvent action _ url data =>
      if decide (action = Schema.CREATE) then commentCreated apiKey url data st
      else ret st
  end.

(** From the validated event to the variables at the end of the [switch]:
    the embed is made, the tracker's client is built, the event is
    classified. *)
Definition enrich (credentials : Credentials) (event : Schema.Event) : Run Locals :=
  let* e := built (Embed.new (random world) LINEAR_COLOR (Schema.createdAt event)) in
  let* _ := LinearClient_new (linearToken credentials) in
  classify (linearToken credentials) event (mkLocals e None None).

(** The message posted for the classified event. *)
Definition messageOf (st : Locals) : Message :=
  mkMessage (messageContent (discordUserId (assignee st) (actionUser st)))
    WEBHOOK_USERNAME WEBHOOK_AVATAR_URL [embed st].

(** The rest of the [try] block once the event is validated: enrich,
    dispatch, answer. *)
Definition relay (credentials : Credentials) (event : Schema.Event) : Run Response :=
  let* st := enrich credentials event in
  let webhookUrl :=
    DISCORD_WEBHOOKS_URL +:+ "/" +:+ webhookId credentials
    +:+ "/" +:+ webhookToken credentials in
  let* _ := await (Fetch webhookUrl (messageOf st))
                  (fetch world webhookUrl (messageOf st)) in
  ret (send (mkEnvelope true (Some "OK") ErrNull)).

(** The [try] block. *)
Definition attempt (req : Request) : Run Response :=
  let forwardedFor := Js.orEmpty (forwardedForHeader req) in
  if negb (bool_decide (method req = Some "POST"))
  then throw (HttpError ("Method " +:+ default "undefined" (method req) +:+ " is not allowed.") 405)
  else
    let success := Zod.enumAccepts LINEAR_TRUSTED_IPS forwardedFor in
    if negb (bool_decide (NODE_ENV world = Some "development")) && negb success
    then throw (HttpError
                  ("Request from IP address " +:+ Js.show (Some forwardedFor)
                   +:+ " is not allowed.") 403)
    else
      let* credentials := QUERY_SCHEMA_parse (query req) in
      match SCHEMA_safeParse (body req) with
      | None => ret (send (mkEnvelope true (Some "Event skipped.") ErrNull))
      | Some event => relay credentials event
      end.

(** The [catch] block. *)
Definition recover (e : Thrown) : Response :=
  match e with
  | HttpError message statusCode =>
      mkResponse statusCode (mkEnvelope false None (ErrText message))
  | ZodError issues => mkResponse 400 (mkEnvelope false None (ErrIssues issues))
  | OtherError _ => mkResponse 500 (mkEnvelope false None (ErrText "Something went wrong."))
  end.

(** The handler: the network calls it made and the response it sent. *)
Definition handler (req : Request) : Trace * Response :=
  match attempt req with
  | (t, inr response) => (t, response)
  | (t, inl e) => (t, recover e)
  end.

End Handler.

(** ** The event schema *)

Module SchemaModel.

(** Modelled from the spec: [SCHEMA] of lib/schema is not among the sources.
    It is a closed schema of the combinations the system understands, each
    with its required fields: Issue-Create (creator id, URL, team key and
    name, state name, optional assignee, optional description), Issue-Update
    (the same and an [updatedFrom] object that may hold a [stateId]), and
    Comment-Create (author id, parent issue id and title, URL, body text).
    The key names are the property names the handler reads. *)

Fixpoint member (key : string) (members : list (string * Js.Json)) : option Js.Json :=
  match members with
  | [] => None
  | (k, v) :: rest => if String.eqb k key then Some v else member key rest
  end.

Definition text (key : string) (members : list (string * Js.Json)) : option string :=
  match member key members with
  | Some (Js.JString s) => Some s
  | _ => None
  end.

Definition object (key : string) (members : list (string * Js.Json))
  : option (list (string * Js.Json)) :=
  match member key members with
  | Some (Js.JObject inner) => Some inner
  | _ => None
  end.

(** An optional key: absent is fine, present must have the right shape. *)
Definition optional {A} (key : string) (members : list (string * Js.Json))
    (read : option A) : option (option A) :=
  match member key members with
  | None => Some None
  | Some _ => match read with Some a => Some (Some a) | None => None end
  end.

Definition issueData (data : list (string * Js.Json)) : option Schema.IssueData :=
  creator ← text "creatorId" data;
  title ← text "title" data;
  team ← object "team" data;
  key ← text "key" team;
  name ← text "name" team;
  state ← object "state" data;
  stateName ← text "name" state;
  stateColor ← text "color" state;
  who ← optional "assignee" data
        (ref ← object "assignee" data; id ← text "id" ref; Some (Schema.mkAssigneeRef id));
  description ← optional "description" data (text "description" data);
  Some (Schema.mkIssueData creator title (Schema.mkTeam key name)
          (Schema.mkState stateName stateColor) who description).

Definition commentData (data : list (string * Js.Json)) : option Schema.CommentData :=
  user ← text "userId" data;
  parent ← object "issue" data;
  id ← text "id" parent;
  title ← text "title" parent;
  body ← text "body" data;
  Some (Schema.mkCommentData user (Schema.mkIssueRef id title) body).

Definition safeParse (json : Js.Json) : option Schema.Event :=
  match json with
  | Js.JObject members =>
      type ← text "type" members;
      action ← text "action" members;
      createdAt ← text "createdAt" members;
      url ← text "url" members;
      data ← object "data" members;
      if String.eqb type "Issue" && String.eqb action "create" then
        d ← issueData data;
        Some (Schema.IssueEvent Schema.CREATE createdAt url d None)
      else if String.eqb type "Issue" && String.eqb action "update" then
        d ← issueData data;
        from ← object "updatedFrom" members;
        changed ← optional "stateId" from (text "stateId" from);
        Some (Schema.IssueEvent Schema.UPDATE createdAt url d
                (Some (Schema.mkUpdatedFrom changed)))
      else if String.eqb type "Comment" && String.eqb action "create" then
        d ← commentData data;
        Some (Schema.CommentEvent Schema.CREATE createdAt url d)
      else None
  | _ => None
  end.

End SchemaModel.

(** ** The vocabulary of the specification *)

Definition isPost (req : Request) : Prop := method req = Some "POST".

(** The forwarded-for address is one of the allow-listed ones. *)
Definition trustedCaller (req : Request) : Prop :=
  exists ip, forwardedForHeader req = Some (Js.One ip) /\ ip ∈ LINEAR_TRUSTED_IPS.

Definition development (world : World) : Prop := NODE_ENV world = Some "development".

(** The request passes the gate: right method, and a trusted caller unless
    the process runs in development mode. *)
Definition admitted (world : World) (req : Request) : Prop :=
  isPost req /\ (development world \/ trustedCaller req).

Definition REQUIRED : list string := ["webhookId"; "webhookToken"; "linearToken"].

Definition isString (v : option Js.StringOrArray) : Prop := exists s, v = Some (Js.One s).

Definition hasCredentials (req : Request) (c : Credentials) : Prop :=
  query req !! "webhookId" = Some (Js.One (webhookId c))
  /\ query req !! "webhookToken" = Some (Js.One (webhookToken c))
  /\ query req !! "linearToken" = Some (Js.One (linearToken c)).

(** The combinations for which the handler has a recipe. *)
Definition handled (event : Schema.Event) : bool :=
  match event with
  | Schema.IssueEvent action _ _ _ updatedFrom =>
      bool_decide (action = Schema.CREATE)
      || (bool_decide (action = Schema.UPDATE) && Schema.statusChanged updatedFrom)
  | Schema.CommentEvent action _ _ _ => bool_decide (action = Schema.CREATE)
  end.

Definition webhookUrlOf (c : Credentials) : string :=
  "https://discord.com/api/webhooks/" +:+ webhookId c +:+ "/" +:+ webhookToken c.

(** The entry a call leaves in the trace. *)
Definition outcome {A} (c : Call) (result : string + A) : Outcome :=
  match result with
  | inl reason => Rejected c reason
  | inr _ => Resolved c
  end.

(** The one entry a dispatch leaves in the trace. *)
Definition dispatched (world : World) (url : string) (msg : Message) : Outcome :=
  outcome (Fetch url msg) (fetch world url msg).

(** The embed that holds nothing but the brand color, 0x5E6AD2, and the
    instant of the event's creation. *)
Definition brandEmbed (createdAt : string) : Embed.t :=
  Embed.mk (Embed.Rgb 6187730) (Js.DateOf createdAt) None None None None [] None.

(** The message that carries nothing but that embed, under the sender's
    name and avatar. *)
Definition bareMessage (createdAt : string) : Message :=
  mkMessage None "Linear" "https://ldw.screfy.com/static/linear.png"
    [brandEmbed createdAt].

(** The text of a mention. *)
Definition wave (id : string) : string := "ðŸ‘‹ <@" +:+ id +:+ ">".

(** The table of display names, entry by entry. *)
Definition mappedId (displayName : string) : option string :=
  if String.eqb displayName "kong" then Some "152805815097491456"
  else if String.eqb displayName "kyo.production99" then Some "946380955088732160"
  else if String.eqb displayName "james.lee" then Some "289070271523061761"
  else if String.eqb displayName "aki" then Some "181394763683987457"
  else if String.eqb displayName "junxiong.low" then Some "611578492026486808"
  else None.

(** The mention rule: nothing when the assignee is the actor or the display
    name is not in the table, the mention of the mapped id otherwise. *)
Definition mentionRule (who actor : User.t) : option string :=
  if String.eqb (User.id who) (User.id actor) then None
  else wave <$> mappedId (User.displayName who).

(** The content the handler posts: the mention rule, and for a display name
    that is not in the table but names a member every object inherits, a
    mention made of that member. *)
Definition expectedContent (who : option User.t) (actor : User.t) : option string :=
  match who with
  | None => None
  | Some w =>
      if String.eqb (User.id w) (User.id actor) then None
      else match mappedId (User.displayName w) with
           | Some id => Some (wave id)
           | None => wave <$> (Js.OBJECT_PROTOTYPE !! User.displayName w)
           end
  end.

(** The mention rule in the words of the specification: a mention of the
    mapped id when the two people differ and the assignee's display name is
    in the table, nothing otherwise. *)
Definition mentionFor (who actor : User.t) : option string :=
  if decide (User.id who = User.id actor) then None
  else mention <$> (LINEAR_DISPLAY_NAME_TO_DISCORD_ID !! User.displayName who).

(** The identifier in the words of the specification: what precedes the
    fragment marker in a path piece. *)
Definition stripFragment (piece : string) : string := JsString.before "#" piece.

(** A run that stays clear of the chat webhook: it dispatches nothing, what
    it throws is an ordinary error, and it throws whenever one of its
    lookups was rejected. *)
Definition quiet {A} (m : Run A) : Prop :=
  (forall o, o ∈ fst m -> isFetch o = false)
  /\ (forall e, snd m = inl e -> exists description, e = OtherError description)
  /\ (lookupFailed (fst m) -> exists description, snd m = inl (OtherError description)).

(** The same request with another forwarded-for header. *)
Definition withForwardedFor (header : option Js.StringOrArray) (req : Request) : Request :=
  mkRequest (method req) header (query req) (body req).

Definition skipped : Response := send (mkEnvelope true (Some "Event skipped.") ErrNull).

Definition genericFailure : Response :=
  mkResponse 500 (mkEnvelope false None (ErrText "Something went wrong.")).

(** ** The handler as a relation

    Every way the handler can end, with the calls made on the way. *)

Definition okResponse : Response := send (mkEnvelope true (Some "OK") ErrNull).

(** The variables as the handler initialises them. *)
Definition initialLocals (event : Schema.Event) : Locals :=
  mkLocals (brandEmbed (Schema.createdAt event)) None None.

Inductive Answer (SCHEMA_safeParse : Js.Json -> option Schema.Event)
    (world : World) (req : Request) : Trace -> Response -> Prop :=
| WrongMethod :
    method req <> Some "POST" ->
    Answer SCHEMA_safeParse world req []
      (mkResponse 405
         (mkEnvelope false None
            (ErrText ("Method " +:+ default "undefined" (method req) +:+ " is not allowed."))))
| Refused :
    isPost req -> ~ development world -> ~ trustedCaller req ->
    Answer SCHEMA_safeParse world req []
      (mkResponse 403
         (mkEnvelope false None
            (ErrText ("Request from IP address "
                      +:+ Js.show (Some (Js.orEmpty (forwardedForHeader req)))
                      +:+ " is not allowed."))))
| BadQuery issues :
    admitted world req ->
    QUERY_SCHEMA_parse (query req) = throw (ZodError issues) ->
    issues <> [] ->
    Answer SCHEMA_safeParse world req []
      (mkResponse 400 (mkEnvelope false None (ErrIssues issues)))
| Skipped c :
    admitted world req -> hasCredentials req c ->
    SCHEMA_safeParse (body req) = None ->
    Answer SCHEMA_safeParse world req [] skipped
| Failed c event lookups description :
    admitted world req -> hasCredentials req c ->
    SCHEMA_safeParse (body req) = Some event ->
    enrich world c event = (lookups, inl (OtherError description)) ->
    Answer SCHEMA_safeParse world req lookups genericFailure
| Undelivered c event lookups st reason :
    admitted world req -> hasCredentials req c ->
    SCHEMA_safeParse (body req) = Some event ->
    enrich world c event = (lookups, inr st) ->
    fetch world (webhookUrlOf c) (messageOf st) = inl reason ->
    Answer SCHEMA_safeParse world req
      (lookups ++ [Rejected (Fetch (webhookUrlOf c) (messageOf st)) reason])
      genericFailure
| Delivered c event lookups st done :
    admitted world req -> hasCredentials req c ->
    SCHEMA_safeParse (body req) = Some event ->
    enrich world c event = (lookups, inr st) ->
    fetch world (webhookUrlOf c) (messageOf st) = inr done ->
    Answer SCHEMA_safeParse world req
      (lookups ++ [Resolved (Fetch (webhookUrlOf c) (messageOf st))])
      okResponse.

(** The call behind a trace entry. *)
Definition callOf (o : Outcome) : Call :=
  match o with
  | Resolved c | Rejected c _ | Started c => c
  end.

(** The API key a lookup was made with. *)
Definition apiKeyOf (c : Call) : option string :=
  match c with
  | LinearUser apiKey _ | LinearIssue apiKey _ => Some apiKey
  | Fetch _ _ => None
  end.

(** A run that makes at most [n] calls, all of them satisfying [P], and
    whose value, if it produces one, satisfies [Q]. *)
Definition within {A} (n : nat) (P : Outcome -> Prop) (Q : A -> Prop) (m : Run A) : Prop :=
  length (fst m) <= n
  /\ Forall P (fst m)
  /\ (forall a, snd m = inr a -> Q a).

(** A lookup made with the given API key. *)
Definition lookupWith (apiKey : string) (o : Outcome) : Prop :=
  apiKeyOf (callOf o) = Some apiKey.

(** The embeds of the three recipes, written out field by field. *)
Definition issueCreatedEmbed (createdAt url identifier : string)
    (data : Schema.IssueData) (actor : User.t) (who : option User.t) : Embed.t :=
  Embed.mk (Embed.Rgb 6187730) (Js.DateOf createdAt)
    (Some (identifier +:+ " " +:+ Schema.title data))
    (Some url)
    (Some "New issue added")
    (Some (Embed.mkFooter (User.name actor) (User.avatarUrl actor)))
    ([ Embed.mkField "Team"
         ("[" +:+ Schema.team_name (Schema.team data) +:+ "](https://linear.app/team/"
          +:+ Schema.team_key (Schema.team data) +:+ ")") true;
       Embed.mkField "Status" (Schema.state_name (Schema.state data)) true ]
     ++ match who with
        | Some a =>
            [ Embed.mkField "Assignee"
                ("[" +:+ User.displayName a +:+ "](" +:+ User.url a +:+ ")") true ]
        | None => []
        end)
    (match Schema.description data with
     | Some "" | None => None
     | Some text => Some text
     end).

Definition statusChangedEmbed (color : Embed.Color) (createdAt url identifier : string)
    (data : Schema.IssueData) (actor : User.t) : Embed.t :=
  Embed.mk color (Js.DateOf createdAt)
    (Some (identifier +:+ " " +:+ Schema.title data))
    (Some url)
    (Some "Status changed")
    (Some (Embed.mkFooter (User.name actor) (User.avatarUrl actor)))
    []
    (Some ("Status: **" +:+ Schema.state_name (Schema.state data) +:+ "**")).

Definition commentCreatedEmbed (createdAt url identifier : string)
    (data : Schema.CommentData) (actor : User.t) : Embed.t :=
  Embed.mk (Embed.Rgb 6187730) (Js.DateOf createdAt)
    (Some (identifier +:+ " " +:+ Schema.issue_title (Schema.issue data)))
    (Some url)
    (Some "New comment")
    (Some (Embed.mkFooter (User.name actor) (User.avatarUrl actor)))
    []
    (Some (Schema.body data)).

(** The lookup of an issue's assignee, when the event names one. *)
Definition assigneeLookup (world : World) (apiKey : string) (data : Schema.IssueData)
  : option (string + User.t) :=
  (fun ref => linearUser world apiKey (Schema.assignee_id ref)) <$> Schema.assignee data.

(** The trace entry of that lookup when it resolves. *)
Definition assigneeCall (apiKey : string) (data : Schema.IssueData) : Trace :=
  match Schema.assignee data with
  | Some ref => [Resolved (LinearUser apiKey (Schema.assignee_id ref))]
  | None => []
  end.

(** The reads of a fetched issue's assignee: what the awaited one yields,
    and the two entries they leave in the trace when it resolves. *)
Definition issueAssignee (world : World) (apiKey : string) (found : Issue.t)
  : option (string + User.t) :=
  linearUser world apiKey <$> Issue.assignee found.

Definition issueAssigneeCalls (apiKey : string) (found : Issue.t) : Trace :=
  match Issue.assignee found with
  | Some id => [Started (LinearUser apiKey id); Resolved (LinearUser apiKey id)]
  | None => []
  end.

(** The message a recipe posts. *)
Definition recipeMessage (who : option User.t) (actor : User.t) (e : Embed.t) : Message :=
  mkMessage (expectedContent who actor)
    "Linear" "https://ldw.screfy.com/static/linear.png" [e].

(** The address of an issue in the tracker's web application, up to and
    including its identifier. *)
Definition linearIssueUrl (workspace identifier : string) : string :=
  LINEAR_BASE_URL +:+ "/" +:+ workspace +:+ "/issue/" +:+ identifier.

(** The chat library accepts what the recipe of the event gives it: the
    state of a created issue has a name, the color of the state of a moved
    issue resolves. *)
Definition recipeAccepted (world : World) (event : Schema.Event) : Prop :=
  match event with
  | Schema.IssueEvent action _ _ data _ =>
      if decide (action = Schema.CREATE)
      then Schema.state_name (Schema.state data) <> ""
      else exists color,
          Embed.resolveColor (random world) (Schema.state_color (Schema.state data))
          = inr color
  | Schema.CommentEvent _ _ _ _ => True
  end.

(** The same request with another query. *)
Definition withQuery (q : gmap string Js.StringOrArray) (req : Request) : Request :=
  mkRequest (method req) (forwardedForHeader req) q (body req).

(** ** Sample worlds and requests *)

Module Sample.

Definition kong : User.t :=
  User.mk "u-kong" "Kong" "kong" "https://linear.app/acme/profiles/kong" None.
Definition aki : User.t :=
  User.mk "u-aki" "Aki" "aki" "https://linear.app/acme/profiles/aki"
    (Some "https://cdn.example/aki.png").
Definition guest : User.t :=
  User.mk "u-guest" "Guest" "guest" "https://linear.app/acme/profiles/guest" None.
Definition oddName : User.t :=
  User.mk "u-odd" "Odd" "constructor" "https://linear.app/acme/profiles/constructor" None.

Definition users : gmap string User.t :=
  list_to_map [("u-kong", kong); ("u-aki", aki); ("u-guest", guest); ("u-odd", oddName)].

Definition findUser (apiKey id : string) : string + User.t :=
  if String.eqb apiKey "lin_api_key"
  then match users !! id with
       | Some u => inr u
       | None => inl "Entity not found"
       end
  else inl "Authentication required"%string.

Definition findIssue (apiKey id : string) : string + Issue.t :=
  if String.eqb apiKey "lin_api_key"
  then if String.eqb id "issue-1" then inr (Issue.mk (Some "u-kong"))
       else if String.eqb id "issue-2" then inr (Issue.mk None)
       else inl "Entity not found"
  else inl "Authentication required"%string.

Definition production : World :=
  mkWorld (Some "production") findUser findIssue (fun _ _ => inr tt) 1193046.

Definition local : World :=
  mkWorld (Some "development") findUser findIssue (fun _ _ => inr tt) 1193046.

(** A world in which the tracker's API is unreachable. *)
Definition trackerDown : World :=
  mkWorld (Some "production")
    (fun _ _ => inl "Network request failed") (fun _ _ => inl "Network request failed")
    (fun _ _ => inr tt) 1193046.

(** A world in which the chat webhook is unreachable. *)
Definition chatDown : World :=
  mkWorld (Some "production") findUser findIssue (fun _ _ => inl "fetch failed") 1193046.

Definition goodQuery : gmap string Js.StringOrArray :=
  list_to_map
    [ ("webhookId", Js.One "1042"); ("webhookToken", Js.One "s3cr3t");
      ("linearToken", Js.One "lin_api_key") ].

Definition credentials : Credentials := mkCredentials "1042" "s3cr3t" "lin_api_key".

Definition issueJson (action url creator : string) (extra : list (string * Js.Json))
    (top : list (string * Js.Json)) : Js.Json :=
  Js.JObject
    ([ ("type", Js.JString "Issue"); ("action", Js.JString action);
       ("createdAt", Js.JString "2022-03-01T10:00:00.000Z");
       ("url", Js.JString url);
       ("data", Js.JObject
          ([ ("creatorId", Js.JString creator); ("title", Js.JString "Fix login");
             ("team", Js.JObject [("key", Js.JString "ENG"); ("name", Js.JString "Engineering")]);
             ("state", Js.JObject [("name", Js.JString "Todo"); ("color", Js.JString "#e2e2e2")])
           ] ++ extra)) ] ++ top).

Definition assignedTo (id : string) : list (string * Js.Json) :=
  [("assignee", Js.JObject [("id", Js.JString id)])].

Definition commentJson (url issueId : string) : Js.Json :=
  Js.JObject
    [ ("type", Js.JString "Comment"); ("action", Js.JString "create");
      ("createdAt", Js.JString "2022-03-01T10:05:00.000Z");
      ("url", Js.JString url);
      ("data", Js.JObject
         [ ("userId", Js.JString "u-aki"); ("body", Js.JString "Looks good");
           ("issue", Js.JObject [("id", Js.JString issueId); ("title", Js.JString "Fix login")]) ]) ].

Definition issueUrl : string := "https://linear.app/acme/issue/ENG-123/fix-login".
Definition commentUrl : string := "https://linear.app/acme/issue/ENG-123#comment-1".
Definition shortUrl : string := "https://linear.app/acme".

Definition post (body : Js.Json) : Request :=
  mkRequest (Some "POST") (Some (Js.One "35.231.147.226")) goodQuery body.

(** An issue created by Aki and assigned to Kong. *)
Definition issueForKong : Request :=
  post (issueJson "create" issueUrl "u-aki" (assignedTo "u-kong") []).

(** An issue created by Aki and assigned to the user whose display name is
    [constructor]. *)
Definition issueForOddName : Request :=
  post (issueJson "create" issueUrl "u-aki" (assignedTo "u-odd") []).

(** An update that did not touch the status. *)
Definition titleEdited : Request :=
  post (issueJson "update" issueUrl "u-aki" []
          [("updatedFrom", Js.JObject [("title", Js.JString "Fix logn")])]).

(** An update that moved the issue to another state. *)
Definition movedToDone : Request :=
  post (issueJson "update" issueUrl "u-aki" []
          [("updatedFrom", Js.JObject [("stateId", Js.JString "state-todo")])]).

(** A trusted request with a further query parameter. *)
Definition withExtraParameter : gmap string Js.StringOrArray :=
  <["debug" := Js.One "1"]> goodQuery.

(** The same update for an issue whose state has a color that is no number
    and no name of the chat library. *)
Definition movedToRed : Request :=
  post (Js.JObject
          [ ("type", Js.JString "Issue"); ("action", Js.JString "update");
            ("createdAt", Js.JString "2022-03-01T10:00:00.000Z");
            ("url", Js.JString issueUrl);
            ("data", Js.JObject
               [ ("creatorId", Js.JString "u-aki"); ("title", Js.JString "Fix login");
                 ("team", Js.JObject
                    [("key", Js.JString "ENG"); ("name", Js.JString "Engineering")]);
                 ("state", Js.JObject
                    [("name", Js.JString "Done"); ("color", Js.JString "red")]) ]);
            ("updatedFrom", Js.JObject [("stateId", Js.JString "state-todo")]) ]).

(** A created issue whose state has an empty name. *)
Definition issueWithUnnamedState : Request :=
  post (Js.JObject
          [ ("type", Js.JString "Issue"); ("action", Js.JString "create");
            ("createdAt", Js.JString "2022-03-01T10:00:00.000Z");
            ("url", Js.JString issueUrl);
            ("data", Js.JObject
               [ ("creatorId", Js.JString "u-aki"); ("title", Js.JString "Fix login");
                 ("team", Js.JObject
                    [("key", Js.JString "ENG"); ("name", Js.JString "Engineering")]);
                 ("state", Js.JObject
                    [("name", Js.JString ""); ("color", Js.JString "#e2e2e2")]) ]) ]).

(** The update that did not touch the status, sent with an empty
    linearToken. *)
Definition titleEditedWithoutKey : Request :=
  mkRequest (Some "POST") (Some (Js.One "35.231.147.226"))
    (list_to_map
       [ ("webhookId", Js.One "1042"); ("webhookToken", Js.One "s3cr3t");
         ("linearToken", Js.One "") ])
    (issueJson "update" issueUrl "u-aki" []
       [("updatedFrom", Js.JObject [("title", Js.JString "Fix logn")])]).

Definition commentOnKongsIssue : Request := post (commentJson commentUrl "issue-1").

Definition commentWithShortUrl : Request := post (commentJson shortUrl "issue-1").

(** A body of an entity type the schema does not know. *)
Definition projectCreated : Request :=
  post (Js.JObject [("type", Js.JString "Project"); ("action", Js.JString "create")]).

Definition withoutToken : Request :=
  mkRequest (Some "POST") (Some (Js.One "35.231.147.226"))
    (list_to_map [("webhookId", Js.One "1042"); ("webhookToken", Js.Many ["a"; "b"])])
    (Js.JObject []).

Definition fromElsewhere : Request :=
  mkRequest (Some "POST") (Some (Js.One "203.0.113.7")) goodQuery
    (issueJson "create" issueUrl "u-aki" [] []).

Definition viaGet : Request :=
  mkRequest (Some "GET") (Some (Js.One "35.231.147.226")) goodQuery Js.JNull.

End Sample.

(** ** Facts about splitting *)

Module JsStringFacts.
Import JsString.

Lemma split_not_nil sep s : split sep s <> [].
Proof.
  destruct s as [|c rest]; simpl; [discriminate|].
  destruct (decide (c = sep)); [discriminate|].
  destruct (split sep rest); discriminate.
Qed.

Lemma split_length_pos sep s : 0 < length (split sep s).
Proof.
  pose proof (split_not_nil sep s) as H.
  destruct (split sep s); [congruence | simpl; lia].
Qed.

(** The first piece of a split is what precedes the first separator. *)
Lemma split_head sep s : head (split sep s) = Some (before sep s).
Proof.
  induction s as [|c rest IH]; simpl; [reflexivity|].
  destruct (decide (c = sep)); [reflexivity|].
  destruct (split sep rest) as [|piece pieces] eqn:E; simpl in *.
  - discriminate.
  - congruence.
Qed.

Lemma join_cons sep piece pieces :
  pieces <> [] -> join sep (piece :: pieces) = piece +:+ String sep (join sep pieces).
Proof. destruct pieces; [congruence | reflexivity]. Qed.

(** Splitting loses nothing: joining the pieces gives the string back. *)
Lemma join_split sep s : join sep (split sep s) = s.
Proof.
  induction s as [|c rest IH]; simpl; [reflexivity|].
  pose proof (split_not_nil sep rest) as Hnil.
  destruct (decide (c = sep)) as [->|Hne].
  - rewrite join_cons by assumption. now rewrite IH.
  - destruct (split sep rest) as [|piece pieces] eqn:E; [congruence|].
    destruct pieces as [|p ps].
    + simpl in *. now rewrite IH.
    + rewrite join_cons by discriminate.
      rewrite join_cons in IH by discriminate.
      change (String c (piece +:+ String sep (join sep (p :: ps))) = String c rest).
      now rewrite IH.
Qed.

(** No piece of a split contains the separator. *)
Lemma split_pieces_free sep s piece :
  In piece (split sep s) -> occurs sep piece = false.
Proof.
  revert piece. induction s as [|c rest IH]; simpl; intros piece Hin.
  - destruct Hin as [<-|[]]. reflexivity.
  - destruct (decide (c = sep)) as [->|Hne].
    + destruct Hin as [<-|Hin]; [reflexivity | now apply IH].
    + destruct (split sep rest) as [|p ps] eqn:E.
      * destruct Hin as [<-|[]]. simpl. now destruct (decide (c = sep)).
      * destruct Hin as [<-|Hin].
        -- simpl. destruct (decide (c = sep)); [congruence|].
           apply IH. now left.
        -- apply IH. now right.
Qed.

Lemma before_free c s : occurs c (before c s) = false.
Proof.
  induction s as [|d rest IH]; simpl; [reflexivity|].
  destruct (decide (d = c)); simpl; [reflexivity|].
  destruct (decide (d = c)); [congruence | exact IH].
Qed.

(** [before c s] is a prefix of [s], followed by nothing or by [c]. *)
Lemma before_prefix c s :
  s = before c s \/ exists rest, s = before c s +:+ String c rest.
Proof.
  induction s as [|d tl IH]; simpl; [now left|].
  destruct (decide (d = c)) as [->|Hne].
  - right. now exists tl.
  - destruct IH as [IH|[rest IH]].
    + left. now f_equal.
    + right. exists rest.
      change (String d tl = String d (before c tl +:+ String c rest)).
      now f_equal.
Qed.

End JsStringFacts.

(** ** The monad of runs *)

Lemma bind_ret {A B} (a : A) (k : A -> Run B) : bind (ret a) k = k a.
Proof. unfold bind, ret. now destruct (k a). Qed.

Lemma bind_throw {A B} (e : Thrown) (k : A -> Run B) : bind (throw e) k = throw e.
Proof. reflexivity. Qed.

Lemma bind_resolved {A B} (c : Call) (a : A) (k : A -> Run B) :
  bind (await c (inr a)) k = (Resolved c :: fst (k a), snd (k a)).
Proof. unfold bind, await. now destruct (k a). Qed.

Lemma bind_rejected {A B} (c : Call) (reason : string) (k : A -> Run B) :
  bind (await c (inl reason)) k = ([Rejected c reason], inl (OtherError reason)).
Proof. reflexivity. Qed.

(** ** The identifier parse *)

Lemma parseIdentifier_piece url piece :
  JsString.split "/" url !! 5 = Some piece ->
  parseIdentifier url = ret (stripFragment piece).
Proof.
  intros H. unfold parseIdentifier. rewrite H.
  pose proof (JsStringFacts.split_head "#" piece) as Hh.
  destruct (JsString.split "#" piece) as [|first rest]; simpl in Hh; [discriminate|].
  now injection Hh as ->.
Qed.

Lemma parseIdentifier_short url :
  length (JsString.split "/" url) < 6 ->
  exists description, parseIdentifier url = throw (OtherError description).
Proof.
  intros H. unfold parseIdentifier.
  rewrite (proj2 (lookup_ge_None (JsString.split "/" url) 5)) by lia.
  eauto.
Qed.

(** The parse is partial: it yields an identifier exactly for the URLs with
    at least six pieces. *)
Lemma parseIdentifier_defined url :
  (exists identifier, parseIdentifier url = ret identifier)
  <-> 6 <= length (JsString.split "/" url).
Proof.
  split.
  - intros [identifier H].
    destruct (le_lt_dec 6 (length (JsString.split "/" url))) as [|Hshort]; [assumption|].
    destruct (parseIdentifier_short url Hshort) as [d Hd].
    rewrite Hd in H. discriminate.
  - intros H.
    destruct (lookup_lt_is_Some_2 (JsString.split "/" url) 5) as [piece Hpiece]; [lia|].
    exists (stripFragment piece). now apply parseIdentifier_piece.
Qed.

(** C4: the parsed identifier of a URL is its sixth '/'-separated piece
    with everything from the fragment marker '#' onward removed; the URL of
    a comment on ENG-123 gives ENG-123. *)
Theorem parseIdentifier_sixth_piece :
  (forall url piece,
      JsString.split "/" url !! 5 = Some piece ->
      parseIdentifier url = ret (stripFragment piece))
  /\ parseIdentifier "https://linear.app/acme/issue/ENG-123#comment-1" = ret "ENG-123".
Proof.
  split.
  - exact parseIdentifier_piece.
  - reflexivity.
Qed.

Lemma parseIdentifier_sixth_piece_witness :
  JsString.split "/" Sample.issueUrl !! 5 = Some "ENG-123"
  /\ parseIdentifier Sample.issueUrl = ret (stripFragment "ENG-123").
Proof.
  split; [reflexivity|].
  apply (proj1 parseIdentifier_sixth_piece Sample.issueUrl "ENG-123").
  reflexivity.
Defined.

(** ** The request gate *)

Section Gate.

Variable SCHEMA_safeParse : Js.Json -> option Schema.Event.
Variable world : World.

Lemma orEmpty_one (s : string) : Js.orEmpty (Some (Js.One s)) = Js.One s.
Proof. now destruct s. Qed.

Lemma enumAccepts_trusted (req : Request) :
  Zod.enumAccepts LINEAR_TRUSTED_IPS (Js.orEmpty (forwardedForHeader req)) = true
  <-> trustedCaller req.
Proof.
  unfold trustedCaller. split.
  - destruct (forwardedForHeader req) as [[s|l]|] eqn:E.
    + rewrite orEmpty_one. unfold Zod.enumAccepts.
      intros H. apply bool_decide_eq_true in H. eauto.
    + discriminate.
    + discriminate.
  - intros (ip & -> & Hin). rewrite orEmpty_one.
    now apply bool_decide_eq_true.
Qed.

Lemma attempt_not_post (req : Request) :
  method req <> Some "POST" ->
  attempt SCHEMA_safeParse world req
  = throw (HttpError ("Method " +:+ default "undefined" (method req) +:+ " is not allowed.") 405).
Proof.
  intros H. unfold attempt. now rewrite bool_decide_eq_false_2.
Qed.

Lemma attempt_refused (req : Request) :
  isPost req -> ~ development world -> ~ trustedCaller req ->
  attempt SCHEMA_safeParse world req
  = throw (HttpError ("Request from IP address "
                      +:+ Js.show (Some (Js.orEmpty (forwardedForHeader req)))
                      +:+ " is not allowed.") 403).
Proof.
  intros Hpost Hdev Hip. unfold attempt.
  rewrite bool_decide_eq_true_2 by exact Hpost.
  rewrite bool_decide_eq_false_2 by exact Hdev.
  destruct (Zod.enumAccepts _ _) eqn:E; [|reflexivity].
  now apply enumAccepts_trusted in E.
Qed.

Lemma attempt_admitted (req : Request) :
  admitted world req ->
  attempt SCHEMA_safeParse world req
  = (let* credentials := QUERY_SCHEMA_parse (query req) in
     match SCHEMA_safeParse (body req) with
     | None => ret (send (mkEnvelope true (Some "Event skipped.") ErrNull))
     | Some event => relay world credentials event
     end).
Proof.
  intros [Hpost Hin]. unfold attempt.
  rewrite bool_decide_eq_true_2 by exact Hpost. simpl.
  destruct Hin as [Hdev|Hip].
  - now rewrite bool_decide_eq_true_2 by exact Hdev.
  - apply enumAccepts_trusted in Hip. rewrite Hip.
    now rewrite andb_false_r.
Qed.

Lemma QUERY_SCHEMA_parse_ok (req : Request) (c : Credentials) :
  hasCredentials req c -> QUERY_SCHEMA_parse (query req) = ret c.
Proof.
  intros (H1 & H2 & H3). unfold QUERY_SCHEMA_parse.
  rewrite H1, H2, H3. now destruct c.
Qed.

Lemma attempt_validated (req : Request) (c : Credentials) :
  admitted world req -> hasCredentials req c ->
  attempt SCHEMA_safeParse world req
  = match SCHEMA_safeParse (body req) with
    | None => ret (send (mkEnvelope true (Some "Event skipped.") ErrNull))
    | Some event => relay world c event
    end.
Proof.
  intros Hadm Hc. rewrite attempt_admitted by exact Hadm.
  rewrite (QUERY_SCHEMA_parse_ok req c Hc). apply bind_ret.
Qed.

End Gate.

(** C8: a request whose method is not POST is answered with 405 and
    success = false, whatever else it holds, and nothing is called. *)
Theorem not_post_405 (SCHEMA_safeParse : Js.Json -> option Schema.Event)
    (world : World) (req : Request) :
  method req <> Some "POST" ->
  fst (handler SCHEMA_safeParse world req) = []
  /\ statusCode (snd (handler SCHEMA_safeParse world req)) = 405
  /\ success (envelope (snd (handler SCHEMA_safeParse world req))) = false.
Proof.
  intros H. unfold handler.
  rewrite attempt_not_post by exact H. simpl. auto.
Qed.

Lemma not_post_405_witness :
  method Sample.viaGet <> Some "POST"
  /\ statusCode (snd (handler SchemaModel.safeParse Sample.production Sample.viaGet)) = 405.
Proof.
  split; [discriminate|].
  apply (not_post_405 SchemaModel.safeParse Sample.production Sample.viaGet).
  discriminate.
Defined.

(** ** Query validation *)

Lemma checkString_string key v : isString v -> Zod.checkString key v = [].
Proof. intros [s ->]. reflexivity. Qed.

Lemma checkString_issue key v :
  ~ isString v ->
  exists issue, Zod.checkString key v = [issue] /\ Zod.path issue = [key].
Proof.
  intros H. destruct v as [[s|l]|]; simpl; eauto.
  exfalso. apply H. now exists s.
Qed.

Lemma isString_dec (v : option Js.StringOrArray) : isString v \/ ~ isString v.
Proof.
  destruct v as [[s|l]|].
  - left. now exists s.
  - right. intros [s H]. discriminate.
  - right. intros [s H]. discriminate.
Qed.

Lemma QUERY_SCHEMA_parse_issues (q : gmap string Js.StringOrArray) :
  (exists key, key ∈ REQUIRED /\ ~ isString (q !! key)) ->
  QUERY_SCHEMA_parse q
  = throw (ZodError (Zod.checkString "webhookId" (q !! "webhookId")
                     ++ Zod.checkString "webhookToken" (q !! "webhookToken")
                     ++ Zod.checkString "linearToken" (q !! "linearToken"))).
Proof.
  intros (key & Hkey & Hbad). unfold QUERY_SCHEMA_parse.
  destruct (q !! "webhookId") as [[i|i]|] eqn:Ei; try reflexivity.
  destruct (q !! "webhookToken") as [[t|t]|] eqn:Et; try reflexivity.
  destruct (q !! "linearToken") as [[l|l]|] eqn:El; try reflexivity.
  exfalso. apply Hbad. unfold REQUIRED in Hkey.
  apply elem_of_cons in Hkey as [->|Hkey]; [rewrite Ei; now eexists|].
  apply elem_of_cons in Hkey as [->|Hkey]; [rewrite Et; now eexists|].
  apply elem_of_cons in Hkey as [->|Hkey]; [rewrite El; now eexists|].
  now apply elem_of_nil in Hkey.
Qed.

(** C6: a request that passes the gate but whose query lacks one of
    webhookId, webhookToken, linearToken, or has a non-string there, is
    answered with 400 and an error that is a non-empty list holding an issue
    for each such field (and for no other); nothing is called. *)
Theorem missing_parameter_400 (SCHEMA_safeParse : Js.Json -> option Schema.Event)
    (world : World) (req : Request) :
  admitted world req ->
  (exists key, key ∈ REQUIRED /\ ~ isString (query req !! key)) ->
  fst (handler SCHEMA_safeParse world req) = []
  /\ statusCode (snd (handler SCHEMA_safeParse world req)) = 400
  /\ success (envelope (snd (handler SCHEMA_safeParse world req))) = false
  /\ exists issues,
      error (envelope (snd (handler SCHEMA_safeParse world req))) = ErrIssues issues
      /\ issues <> []
      /\ (forall key, key ∈ REQUIRED -> ~ isString (query req !! key) ->
          exists issue, issue ∈ issues /\ Zod.path issue = [key])
      /\ (forall issue, issue ∈ issues ->
          exists key, key ∈ REQUIRED /\ Zod.path issue = [key]
                      /\ ~ isString (query req !! key)).
Proof.
  intros Hadm Hbad. unfold handler.
  rewrite attempt_admitted by exact Hadm.
  rewrite QUERY_SCHEMA_parse_issues by exact Hbad.
  rewrite bind_throw. simpl.
  repeat split; try reflexivity.
  eexists. split; [reflexivity|].
  assert (Hall : forall key, key ∈ REQUIRED -> ~ isString (query req !! key) ->
            exists issue,
              issue ∈ Zod.checkString "webhookId" (query req !! "webhookId")
                      ++ Zod.checkString "webhookToken" (query req !! "webhookToken")
                      ++ Zod.checkString "linearToken" (query req !! "linearToken")
              /\ Zod.path issue = [key]).
  { intros key Hkey Hk.
    destruct (checkString_issue key _ Hk) as (issue & Hc & Hp).
    exists issue. split; [|exact Hp].
    unfold REQUIRED in Hkey. rewrite !elem_of_app.
    apply elem_of_cons in Hkey as [->|Hkey]; [left; rewrite Hc; apply list_elem_of_here|].
    apply elem_of_cons in Hkey as [->|Hkey];
      [right; left; rewrite Hc; apply list_elem_of_here|].
    apply elem_of_cons in Hkey as [->|Hkey];
      [right; right; rewrite Hc; apply list_elem_of_here|].
    now apply elem_of_nil in Hkey. }
  split; [|split].
  - destruct Hbad as (key & Hkey & Hk).
    destruct (Hall key Hkey Hk) as (issue & Hin & _).
    intros Hnil. rewrite Hnil in Hin. now apply elem_of_nil in Hin.
  - exact Hall.
  - intros issue Hin. rewrite !elem_of_app in Hin.
    assert (Hone : forall key, issue ∈ Zod.checkString key (query req !! key) ->
              Zod.path issue = [key] /\ ~ isString (query req !! key)).
    { intros key Hi. destruct (isString_dec (query req !! key)) as [Hs|Hs].
      - rewrite checkString_string in Hi by exact Hs. now apply elem_of_nil in Hi.
      - destruct (checkString_issue key _ Hs) as (issue' & Hc & Hp).
        rewrite Hc in Hi. apply list_elem_of_singleton in Hi. now subst. }
    unfold REQUIRED.
    destruct Hin as [Hin|[Hin|Hin]]; apply Hone in Hin as [Hp Hs].
    + exists "webhookId". split; [repeat constructor | auto].
    + exists "webhookToken". split; [repeat constructor | auto].
    + exists "linearToken". split; [repeat constructor | auto].
Qed.

Lemma missing_parameter_400_witness :
  statusCode (snd (handler SchemaModel.safeParse Sample.production Sample.withoutToken)) = 400.
Proof.
  apply (missing_parameter_400 SchemaModel.safeParse Sample.production Sample.withoutToken).
  - split; [reflexivity|]. right. exists "35.231.147.226".
    split; [reflexivity|]. apply list_elem_of_here.
  - exists "linearToken". split.
    + unfold REQUIRED. do 2 apply list_elem_of_further. apply list_elem_of_here.
    + intros [s H]. vm_compute in H. discriminate.
Defined.

(** ** Classification never dispatches, and fails when a lookup fails *)

Lemma lookupFailed_nil : ~ lookupFailed [].
Proof. intros (c & reason & _ & H). now apply elem_of_nil in H. Qed.

Lemma lookupFailed_app t1 t2 :
  lookupFailed (t1 ++ t2) <-> lookupFailed t1 \/ lookupFailed t2.
Proof.
  unfold lookupFailed. split.
  - intros (c & reason & Hc & Hin). apply elem_of_app in Hin as [Hin|Hin]; eauto 6.
  - intros [(c & reason & Hc & Hin)|(c & reason & Hc & Hin)];
      exists c, reason; rewrite elem_of_app; auto.
Qed.

Lemma dispatches_none t : (forall o, o ∈ t -> isFetch o = false) -> dispatches t = [].
Proof.
  intros H. unfold dispatches. induction t as [|o t IH]; [reflexivity|].
  rewrite filter_cons. destruct (decide (isFetch o = true)) as [Ho|Ho].
  - rewrite (H o) in Ho by apply list_elem_of_here. discriminate.
  - apply IH. intros o' Ho'. apply H. now apply list_elem_of_further.
Qed.

Lemma quiet_ret {A} (a : A) : quiet (ret a).
Proof.
  repeat split; simpl.
  - intros o H. now apply elem_of_nil in H.
  - discriminate.
  - intros H. now apply lookupFailed_nil in H.
Qed.

Lemma quiet_throw {A} description : quiet (@throw A (OtherError description)).
Proof.
  repeat split; simpl.
  - intros o H. now apply elem_of_nil in H.
  - intros e [= <-]. eauto.
  - eauto.
Qed.

Lemma quiet_await {A} (c : Call) (result : string + A) :
  isLookup c = true -> quiet (await c result).
Proof.
  intros Hc. destruct result as [reason|a]; repeat split; simpl.
  - intros o H. apply list_elem_of_singleton in H as ->. now destruct c.
  - intros e [= <-]. eauto.
  - eauto.
  - intros o H. apply list_elem_of_singleton in H as ->. now destruct c.
  - discriminate.
  - intros (c' & reason & _ & H). apply list_elem_of_singleton in H. discriminate.
Qed.

Lemma quiet_start (c : Call) : isLookup c = true -> quiet (start c).
Proof.
  intros Hc. repeat split; simpl.
  - intros o H. apply list_elem_of_singleton in H as ->. now destruct c.
  - discriminate.
  - intros (c' & reason & _ & H). apply list_elem_of_singleton in H. discriminate.
Qed.

Lemma quiet_built {A} (result : Embed.Failure + A) : quiet (built result).
Proof. destruct result as [[code|code]|a]; [apply quiet_throw.. | apply quiet_ret]. Qed.

Lemma quiet_LinearClient_new apiKey : quiet (LinearClient_new apiKey).
Proof.
  unfold LinearClient_new.
  destruct (String.eqb apiKey ""); [apply quiet_throw | apply quiet_ret].
Qed.

Lemma quiet_bind {A B} (m : Run A) (k : A -> Run B) :
  quiet m -> (forall a, quiet (k a)) -> quiet (bind m k).
Proof.
  intros (Hm1 & Hm2 & Hm3) Hk. unfold quiet, bind.
  destruct m as [t [e|a]]; simpl in *.
  - split; [exact Hm1|split].
    + intros e0 [= <-]. exact (Hm2 e eq_refl).
    + intros Hf. destruct (Hm3 Hf) as [description [= ->]]. eauto.
  - destruct (Hk a) as (Hk1 & Hk2 & Hk3).
    destruct (k a) as [t' r]; simpl in *. split; [|split].
    + intros o Ho. apply elem_of_app in Ho as [Ho|Ho]; auto.
    + exact Hk2.
    + intros Hf. apply lookupFailed_app in Hf as [Hf|Hf]; [|auto].
      destruct (Hm3 Hf) as [description Hd]. discriminate.
Qed.

Lemma quiet_parseIdentifier url : quiet (parseIdentifier url).
Proof.
  unfold parseIdentifier.
  destruct (JsString.split "/" url !! 5) as [piece|]; [|apply quiet_throw].
  destruct (JsString.split "#" piece); apply quiet_ret.
Qed.

Ltac quiet_step :=
  first
    [ apply quiet_ret
    | apply quiet_parseIdentifier
    | apply quiet_built
    | apply quiet_start; reflexivity
    | apply quiet_await; reflexivity
    | apply quiet_bind; [|intros ?]
    | match goal with
      | |- quiet (match ?x with _ => _ end) => destruct x
      | |- quiet (if ?b then _ else _) => destruct b
      end ].

Lemma quiet_classify world apiKey event st : quiet (classify world apiKey event st).
Proof.
  destruct event as [action createdAt url data updatedFrom|action createdAt url data];
    unfold classify, issueCreated, issueStatusChanged, commentCreated;
    repeat quiet_step.
Qed.

Lemma quiet_enrich world c event : quiet (enrich world c event).
Proof.
  unfold enrich.
  apply quiet_bind; [apply quiet_built | intros e].
  apply quiet_bind; [apply quiet_LinearClient_new | intros _].
  apply quiet_classify.
Qed.

(** The run after validation, in terms of the enrichment. *)
Lemma relay_enriched world (c : Credentials) (event : Schema.Event) :
  relay world c event
  = match enrich world c event with
    | (t, inl e) => (t, inl e)
    | (t, inr st) =>
        (t ++ [dispatched world (webhookUrlOf c) (messageOf st)],
         match fetch world (webhookUrlOf c) (messageOf st) with
         | inl reason => inl (OtherError reason)
         | inr _ => inr (send (mkEnvelope true (Some "OK") ErrNull))
         end)
    end.
Proof.
  unfold relay, bind, dispatched, outcome, webhookUrlOf.
  destruct (enrich world c event) as [t [e|st]]; [reflexivity|].
  change (DISCORD_WEBHOOKS_URL +:+ "/" +:+ webhookId c +:+ "/" +:+ webhookToken c)
    with ("https://discord.com/api/webhooks/" +:+ webhookId c +:+ "/" +:+ webhookToken c).
  destruct (fetch world _ (messageOf st)) as [reason|[]]; reflexivity.
Qed.

(** What the run after validation can end in. *)
Lemma relay_outcome world (c : Credentials) (event : Schema.Event) :
  snd (relay world c event) = inr (send (mkEnvelope true (Some "OK") ErrNull))
  \/ exists description, snd (relay world c event) = inl (OtherError description).
Proof.
  rewrite relay_enriched.
  destruct (quiet_enrich world c event) as (_ & Hthrown & _).
  destruct (enrich world c event) as [t [e|st]]; simpl in *.
  - right. destruct (Hthrown e eq_refl) as [d ->]. eauto.
  - destruct (fetch world _ _); eauto.
Qed.

Lemma relay_lookupFailed world (c : Credentials) (event : Schema.Event) :
  lookupFailed (fst (relay world c event)) ->
  (exists description, snd (relay world c event) = inl (OtherError description))
  /\ dispatches (fst (relay world c event)) = [].
Proof.
  rewrite relay_enriched.
  destruct (quiet_enrich world c event) as (Hnone & Hthrown & Hfailed).
  destruct (enrich world c event) as [t [e|st]]; simpl in *; intros Hf.
  - destruct (Hthrown e eq_refl) as [d ->].
    split; [eauto | now apply dispatches_none].
  - apply lookupFailed_app in Hf as [Hf|Hf].
    + destruct (Hfailed Hf) as [d Hd]. discriminate.
    + destruct Hf as (call & reason & Hcall & Hin).
      apply list_elem_of_singleton in Hin. unfold dispatched, outcome in Hin.
      destruct (fetch world _ _); [|discriminate].
      injection Hin as -> _. discriminate.
Qed.

(** C3: when an enrichment lookup is rejected, the handler answers 500 with
    the generic message and dispatches nothing. *)
Theorem lookup_failure_500 (SCHEMA_safeParse : Js.Json -> option Schema.Event)
    (world : World) (req : Request) :
  lookupFailed (fst (handler SCHEMA_safeParse world req)) ->
  snd (handler SCHEMA_safeParse world req) = genericFailure
  /\ dispatches (fst (handler SCHEMA_safeParse world req)) = [].
Proof.
  unfold handler, attempt.
  destruct (negb (bool_decide (method req = Some "POST"))).
  { simpl. intros H. now apply lookupFailed_nil in H. }
  destruct (negb (bool_decide (NODE_ENV world = Some "development")) && _).
  { simpl. intros H. now apply lookupFailed_nil in H. }
  unfold QUERY_SCHEMA_parse.
  destruct (query req !! "webhookId") as [[i|i]|];
    try (simpl; intros H; now apply lookupFailed_nil in H).
  destruct (query req !! "webhookToken") as [[t|t]|];
    try (simpl; intros H; now apply lookupFailed_nil in H).
  destruct (query req !! "linearToken") as [[l|l]|];
    try (simpl; intros H; now apply lookupFailed_nil in H).
  rewrite bind_ret.
  destruct (SCHEMA_safeParse (body req)) as [event|].
  2:{ simpl. intros H. now apply lookupFailed_nil in H. }
  intros Hf.
  assert (Hf' : lookupFailed (fst (relay world (mkCredentials i t l) event))).
  { destruct (relay world (mkCredentials i t l) event) as [tr [e|r]]; exact Hf. }
  destruct (relay_lookupFailed world _ event Hf') as ([d Hd] & Hnone).
  destruct (relay world (mkCredentials i t l) event) as [tr [e|r]]; simpl in *.
  - injection Hd as ->. auto.
  - discriminate.
Qed.

Lemma lookup_failure_500_witness :
  snd (handler SchemaModel.safeParse Sample.trackerDown Sample.issueForKong) = genericFailure
  /\ dispatches (fst (handler SchemaModel.safeParse Sample.trackerDown Sample.issueForKong)) = [].
Proof.
  apply (lookup_failure_500 SchemaModel.safeParse Sample.trackerDown Sample.issueForKong).
  exists (LinearUser "lin_api_key" "u-aki"), "Network request failed".
  split; [reflexivity|]. vm_compute. apply list_elem_of_here.
Defined.

(** ** Events the schema does not know *)

(** C1, as amended: a request that passes the gate and the query
    validation and whose body matches no supported schema is answered with
    200, success = true, message = "Event skipped." (with its full stop),
    error = null, and nothing is called. *)
Theorem unsupported_event_skipped (SCHEMA_safeParse : Js.Json -> option Schema.Event)
    (world : World) (req : Request) (c : Credentials) :
  admitted world req -> hasCredentials req c ->
  SCHEMA_safeParse (body req) = None ->
  handler SCHEMA_safeParse world req
  = ([], mkResponse 200 (mkEnvelope true (Some "Event skipped.") ErrNull)).
Proof.
  intros Hadm Hc Hnone. unfold handler.
  rewrite (attempt_validated _ _ _ c Hadm Hc), Hnone. reflexivity.
Qed.

Lemma sample_admitted (body : Js.Json) : admitted Sample.production (Sample.post body).
Proof.
  split; [reflexivity|]. right. exists "35.231.147.226".
  split; [reflexivity | apply list_elem_of_here].
Defined.

Lemma sample_hasCredentials (body : Js.Json) :
  hasCredentials (Sample.post body) Sample.credentials.
Proof. repeat split. Defined.

Lemma unsupported_event_skipped_witness :
  handler SchemaModel.safeParse Sample.production Sample.projectCreated
  = ([], mkResponse 200 (mkEnvelope true (Some "Event skipped.") ErrNull)).
Proof.
  apply (unsupported_event_skipped SchemaModel.safeParse Sample.production
           Sample.projectCreated Sample.credentials).
  - apply sample_admitted.
  - apply sample_hasCredentials.
  - reflexivity.
Defined.

(** C1 as stated fails on the message: it is not the text "Event skipped".  A
    trusted, well-formed POST with a body of an unknown entity type is
    answered with the text that ends in a full stop. *)
Lemma skipped_message_differs :
  admitted Sample.production Sample.projectCreated
  /\ hasCredentials Sample.projectCreated Sample.credentials
  /\ SchemaModel.safeParse (body Sample.projectCreated) = None
  /\ message (envelope (snd (handler SchemaModel.safeParse Sample.production
                               Sample.projectCreated)))
     <> Some "Event skipped".
Proof.
  split; [apply sample_admitted|].
  split; [apply sample_hasCredentials|].
  split; [reflexivity|].
  vm_compute. discriminate.
Qed.

(** ** The allow-list *)

Lemma QUERY_SCHEMA_parse_cases (q : gmap string Js.StringOrArray) :
  (exists c, QUERY_SCHEMA_parse q = ret c)
  \/ (exists issues, QUERY_SCHEMA_parse q = throw (ZodError issues)).
Proof.
  unfold QUERY_SCHEMA_parse.
  destruct (q !! "webhookId") as [[i|i]|]; eauto.
  destruct (q !! "webhookToken") as [[t|t]|]; eauto.
  destruct (q !! "linearToken") as [[l|l]|]; eauto.
Qed.

Lemma admitted_not_403 (SCHEMA_safeParse : Js.Json -> option Schema.Event)
    (world : World) (req : Request) :
  admitted world req ->
  statusCode (snd (handler SCHEMA_safeParse world req)) <> 403.
Proof.
  intros Hadm. unfold handler. rewrite attempt_admitted by exact Hadm.
  destruct (QUERY_SCHEMA_parse_cases (query req)) as [[c ->]|[issues ->]].
  - rewrite bind_ret. destruct (SCHEMA_safeParse (body req)) as [event|].
    + destruct (relay_outcome world c event) as [H|[d H]];
        destruct (relay world c event) as [t r]; simpl in H; subst r;
        simpl; discriminate.
    + simpl. discriminate.
  - rewrite bind_throw. simpl. discriminate.
Qed.

(** C7: outside development mode, a POST request whose forwarded-for
    address is not one of the two allow-listed strings is answered with 403
    and success = false; in development mode the address is not looked at:
    the request is handled as with any other forwarded-for header, and is
    not answered with 403. *)
Theorem untrusted_caller_403 (SCHEMA_safeParse : Js.Json -> option Schema.Event)
    (world : World) (req : Request) :
  isPost req ->
  (~ development world -> ~ trustedCaller req ->
   fst (handler SCHEMA_safeParse world req) = []
   /\ statusCode (snd (handler SCHEMA_safeParse world req)) = 403
   /\ success (envelope (snd (handler SCHEMA_safeParse world req))) = false)
  /\ (development world ->
      (forall header,
          handler SCHEMA_safeParse world (withForwardedFor header req)
          = handler SCHEMA_safeParse world req)
      /\ statusCode (snd (handler SCHEMA_safeParse world req)) <> 403).
Proof.
  intros Hpost. split.
  - intros Hdev Hip. unfold handler.
    rewrite attempt_refused by assumption. simpl. auto.
  - intros Hdev. split.
    + intros header. unfold handler.
      rewrite !attempt_admitted by (split; [exact Hpost | now left]).
      reflexivity.
    + apply admitted_not_403. split; [exact Hpost | now left].
Qed.

Lemma untrusted_caller_403_witness :
  statusCode (snd (handler SchemaModel.safeParse Sample.production Sample.fromElsewhere)) = 403.
Proof.
  refine (proj1 (proj2 (proj1
            (untrusted_caller_403 SchemaModel.safeParse Sample.production
               Sample.fromElsewhere eq_refl) _ _))).
  - intros H. discriminate H.
  - intros (ip & H & Hin). injection H as <-.
    revert Hin.
    apply (bool_decide_eq_false_1 ("203.0.113.7" ∈ LINEAR_TRUSTED_IPS)). reflexivity.
Defined.


(** ** Events without a recipe *)

Lemma bind_started {B} (c : Call) (k : unit -> Run B) :
  bind (start c) k = (Started c :: fst (k tt), snd (k tt)).
Proof. unfold bind, start. now destruct (k tt). Qed.

Lemma built_ok {A} (a : A) : built (inr a) = ret a.
Proof. reflexivity. Qed.

(** The brand color resolves to its number, whatever [Math.random] gives. *)
Lemma Embed_new_brand random createdAt :
  Embed.new random LINEAR_COLOR createdAt = inr (brandEmbed createdAt).
Proof. reflexivity. Qed.

Lemma LinearClient_new_ok apiKey : apiKey <> "" -> LinearClient_new apiKey = ret tt.
Proof.
  intros H. unfold LinearClient_new.
  now rewrite (proj2 (String.eqb_neq apiKey "") H).
Qed.

Lemma LinearClient_new_empty :
  exists description, LinearClient_new "" = throw (OtherError description).
Proof. unfold LinearClient_new. simpl. eauto. Qed.

(** With a key, enrichment is the classification of the event from the
    initial variables. *)
Lemma enrich_classify world (c : Credentials) (event : Schema.Event) :
  linearToken c <> "" ->
  enrich world c event = classify world (linearToken c) event (initialLocals event).
Proof.
  intros Hkey. unfold enrich.
  rewrite Embed_new_brand, built_ok, bind_ret.
  rewrite (LinearClient_new_ok _ Hkey), bind_ret. reflexivity.
Qed.

(** Without a key, nothing is looked up. *)
Lemma enrich_without_key world (c : Credentials) (event : Schema.Event) :
  linearToken c = "" ->
  exists description, enrich world c event = ([], inl (OtherError description)).
Proof.
  intros Hkey. unfold enrich.
  rewrite Embed_new_brand, built_ok, bind_ret, Hkey.
  destruct LinearClient_new_empty as [description ->]. rewrite bind_throw. eauto.
Qed.

Lemma classify_unhandled world apiKey event st :
  handled event = false -> classify world apiKey event st = ret st.
Proof.
  destruct event as [action createdAt url data updatedFrom|action createdAt url data];
    simpl; intros H.
  - apply orb_false_iff in H as [Hc Hu].
    apply bool_decide_eq_false in Hc.
    destruct (decide (action = Schema.CREATE)); [contradiction|].
    now rewrite Hu.
  - apply bool_decide_eq_false in H.
    now destruct (decide (action = Schema.CREATE)).
Qed.

Lemma messageOf_initial event :
  messageOf (initialLocals event) = bareMessage (Schema.createdAt event).
Proof. reflexivity. Qed.

Lemma sample_admitted_chatDown (body : Js.Json) :
  admitted Sample.chatDown (Sample.post body).
Proof.
  split; [reflexivity|]. right. exists "35.231.147.226".
  split; [reflexivity | apply list_elem_of_here].
Defined.

(** C5, as amended: for a validated event with no recipe (such as an issue
    update whose [updatedFrom] holds no [stateId]), once the tracker's client
    is built, the handler makes exactly one call, the dispatch of a message
    without content whose only embed holds the brand color 0x5E6AD2 and the
    instant of the event's creation and nothing else; it answers with the
    success response when that dispatch resolves, and with 500 and the
    generic message when it is rejected. *)
Theorem unhandled_event_dispatches_bare
    (SCHEMA_safeParse : Js.Json -> option Schema.Event)
    (world : World) (req : Request) (c : Credentials) (event : Schema.Event) :
  admitted world req -> hasCredentials req c -> linearToken c <> "" ->
  SCHEMA_safeParse (body req) = Some event ->
  handled event = false ->
  fst (handler SCHEMA_safeParse world req)
  = [dispatched world (webhookUrlOf c) (bareMessage (Schema.createdAt event))]
  /\ dispatches (fst (handler SCHEMA_safeParse world req))
     = [dispatched world (webhookUrlOf c) (bareMessage (Schema.createdAt event))]
  /\ snd (handler SCHEMA_safeParse world req)
     = match fetch world (webhookUrlOf c) (bareMessage (Schema.createdAt event)) with
       | inr _ => mkResponse 200 (mkEnvelope true (Some "OK") ErrNull)
       | inl _ => mkResponse 500 (mkEnvelope false None (ErrText "Something went wrong."))
       end.
Proof.
  intros Hadm Hc Hkey Hevent Hun. unfold handler.
  rewrite (attempt_validated _ _ _ c Hadm Hc), Hevent.
  rewrite relay_enriched, (enrich_classify _ _ _ Hkey), classify_unhandled by exact Hun.
  unfold ret. rewrite messageOf_initial. simpl.
  unfold dispatched, outcome.
  destruct (fetch world _ _) as [reason|done] eqn:E; simpl; repeat split.
Qed.

Lemma unhandled_event_dispatches_bare_witness :
  fst (handler SchemaModel.safeParse Sample.production Sample.titleEdited)
  = [Resolved
       (Fetch "https://discord.com/api/webhooks/1042/s3cr3t"
          (mkMessage None "Linear" "https://ldw.screfy.com/static/linear.png"
             [Embed.mk (Embed.Rgb 6187730) (Js.DateOf "2022-03-01T10:00:00.000Z")
                None None None None [] None]))].
Proof.
  refine (proj1
            (unhandled_event_dispatches_bare SchemaModel.safeParse Sample.production
               Sample.titleEdited Sample.credentials
               (Schema.IssueEvent Schema.UPDATE "2022-03-01T10:00:00.000Z" Sample.issueUrl
                  (Schema.mkIssueData "u-aki" "Fix login" (Schema.mkTeam "ENG" "Engineering")
                     (Schema.mkState "Todo" "#e2e2e2") None None)
                  (Some (Schema.mkUpdatedFrom None)))
               _ _ _ _ _)).
  - apply sample_admitted.
  - apply sample_hasCredentials.
  - discriminate.
  - reflexivity.
  - reflexivity.
Defined.

(** C5 as stated fails on the response: the same update, admitted and
    validated, in a world where the chat webhook rejects the dispatch, is
    answered with 500 and success = false. *)
Lemma unhandled_event_undelivered :
  admitted Sample.chatDown Sample.titleEdited
  /\ hasCredentials Sample.titleEdited Sample.credentials
  /\ (exists event,
         SchemaModel.safeParse (body Sample.titleEdited) = Some event
         /\ handled event = false)
  /\ length (dispatches (fst (handler SchemaModel.safeParse Sample.chatDown
                                Sample.titleEdited))) = 1
  /\ statusCode (snd (handler SchemaModel.safeParse Sample.chatDown Sample.titleEdited))
     = 500
  /\ success (envelope (snd (handler SchemaModel.safeParse Sample.chatDown
                               Sample.titleEdited))) = false.
Proof.
  split; [apply sample_admitted_chatDown|].
  split; [apply sample_hasCredentials|].
  split; [eexists; split; reflexivity|].
  repeat split.
Qed.

(** ** URLs that are too short *)

Lemma classify_short_url world apiKey event st :
  handled event = true ->
  length (JsString.split "/" (Schema.url event)) < 6 ->
  exists t description, classify world apiKey event st = (t, inl (OtherError description)).
Proof.
  intros Hh Hshort.
  destruct event as [action createdAt url data updatedFrom|action createdAt url data];
    simpl in *; destruct (parseIdentifier_short url Hshort) as [d Hd].
  - destruct (decide (action = Schema.CREATE)) as [->|Hne].
    + unfold issueCreated.
      destruct (linearUser world apiKey (Schema.creatorId data)) as [reason|actor].
      * rewrite bind_rejected. eauto.
      * rewrite bind_resolved, Hd, bind_throw. simpl. eauto.
    + rewrite (bool_decide_eq_false_2 _ Hne) in Hh. simpl in Hh. rewrite Hh.
      unfold issueStatusChanged.
      destruct (linearUser world apiKey (Schema.creatorId data)) as [reason|actor].
      * rewrite bind_rejected. eauto.
      * rewrite bind_resolved, Hd, bind_throw. simpl. eauto.
  - apply bool_decide_eq_true in Hh as ->. simpl.
    unfold commentCreated.
    destruct (linearUser world apiKey (Schema.userId data)) as [reason|actor].
    + rewrite bind_rejected. eauto.
    + rewrite bind_resolved.
      destruct (linearIssue world apiKey _) as [reason|found].
      * rewrite bind_rejected. simpl. eauto.
      * rewrite bind_resolved, Hd, bind_throw. simpl. eauto.
Qed.

Lemma enrich_short_url world (c : Credentials) event :
  handled event = true ->
  length (JsString.split "/" (Schema.url event)) < 6 ->
  exists t description, enrich world c event = (t, inl (OtherError description)).
Proof.
  intros Hh Hshort.
  destruct (decide (linearToken c = "")) as [Hkey|Hkey].
  - destruct (enrich_without_key world c event Hkey) as [d Hd]. eauto.
  - rewrite (enrich_classify _ _ _ Hkey). now apply classify_short_url.
Qed.

(** C10: for a validated event with a recipe whose URL has fewer than six
    '/'-separated pieces, the identifier parse throws: the handler answers
    500 with the generic message and dispatches nothing. *)
Theorem short_url_500 (SCHEMA_safeParse : Js.Json -> option Schema.Event)
    (world : World) (req : Request) (c : Credentials) (event : Schema.Event) :
  admitted world req -> hasCredentials req c ->
  SCHEMA_safeParse (body req) = Some event ->
  handled event = true ->
  length (JsString.split "/" (Schema.url event)) < 6 ->
  snd (handler SCHEMA_safeParse world req) = genericFailure
  /\ dispatches (fst (handler SCHEMA_safeParse world req)) = [].
Proof.
  intros Hadm Hc Hevent Hh Hshort. unfold handler.
  rewrite (attempt_validated _ _ _ c Hadm Hc), Hevent, relay_enriched.
  pose proof (quiet_enrich world c event) as (Hnone & _ & _).
  destruct (enrich_short_url world c event Hh Hshort) as (t & d & Ht).
  rewrite Ht in *. simpl in *. split; [reflexivity | now apply dispatches_none].
Qed.

Lemma short_url_500_witness :
  snd (handler SchemaModel.safeParse Sample.production Sample.commentWithShortUrl)
  = genericFailure
  /\ dispatches (fst (handler SchemaModel.safeParse Sample.production
                        Sample.commentWithShortUrl)) = [].
Proof.
  apply (short_url_500 SchemaModel.safeParse Sample.production
           Sample.commentWithShortUrl Sample.credentials
           (Schema.CommentEvent Schema.CREATE "2022-03-01T10:05:00.000Z" Sample.shortUrl
              (Schema.mkCommentData "u-aki" (Schema.mkIssueRef "issue-1" "Fix login")
                 "Looks good"))).
  - apply sample_admitted.
  - apply sample_hasCredentials.
  - reflexivity.
  - reflexivity.
  - vm_compute. lia.
Defined.

(** ** The content of the message *)

Lemma table_lookup name : LINEAR_DISPLAY_NAME_TO_DISCORD_ID !! name = mappedId name.
Proof.
  unfold LINEAR_DISPLAY_NAME_TO_DISCORD_ID, mappedId.
  rewrite !list_to_map_cons, list_to_map_nil.
  repeat (rewrite lookup_insert;
          destruct (decide (_ = name)) as [<-|Hne]; [reflexivity|];
          rewrite (proj2 (String.eqb_neq name _)) by congruence;
          clear Hne).
  apply lookup_empty.
Qed.

Lemma mappedId_nonempty name id : mappedId name = Some id -> String.eqb id "" = false.
Proof.
  unfold mappedId.
  repeat (destruct (String.eqb name _); [now intros [= <-]|]).
  discriminate.
Qed.

(** What the handler computes as content is the expected content. *)
Lemma content_expected who actor :
  messageContent (discordUserId who (Some actor)) = expectedContent who actor.
Proof.
  destruct who as [w|]; [|reflexivity].
  unfold discordUserId, expectedContent.
  destruct (String.eqb (User.id w) (User.id actor)); [reflexivity|].
  simpl negb. cbv iota. unfold Js.get. rewrite table_lookup.
  destruct (mappedId (User.displayName w)) as [id|] eqn:E.
  - unfold messageContent. simpl. now rewrite (mappedId_nonempty _ _ E).
  - destruct (Js.OBJECT_PROTOTYPE !! User.displayName w); reflexivity.
Qed.

Lemma messageOf_recipe e who actor :
  messageOf (mkLocals e who (Some actor)) = recipeMessage who actor e.
Proof. unfold messageOf, recipeMessage. simpl. now rewrite content_expected. Qed.

(** ** Comments *)

Lemma CREATE_decided {A} (x y : A) :
  (if decide (Schema.CREATE = Schema.CREATE) then x else y) = x.
Proof. now destruct (decide (Schema.CREATE = Schema.CREATE)). Qed.

(** The trace of the run after validation starts with the trace of the
    enrichment. *)
Lemma relay_trace world (c : Credentials) (event : Schema.Event) :
  exists rest, fst (relay world c event) = fst (enrich world c event) ++ rest.
Proof.
  rewrite relay_enriched.
  destruct (enrich world c event) as [t [e|st]]; simpl.
  - exists []. now rewrite app_nil_r.
  - eauto.
Qed.

Lemma handler_trace_validated (SCHEMA_safeParse : Js.Json -> option Schema.Event)
    (world : World) (req : Request) (c : Credentials) (event : Schema.Event) :
  admitted world req -> hasCredentials req c ->
  SCHEMA_safeParse (body req) = Some event ->
  fst (handler SCHEMA_safeParse world req) = fst (relay world c event).
Proof.
  intros Hadm Hc Hevent. unfold handler.
  rewrite (attempt_validated _ _ _ c Hadm Hc), Hevent.
  now destruct (relay world c event) as [t [e|r]].
Qed.

(** The enrichment of a created comment whose lookups resolve. *)
Lemma commentCreated_enriched world (c : Credentials) (createdAt url : string)
    (data : Schema.CommentData) (actor : User.t) (found : Issue.t)
    (who : option User.t) (piece : string) :
  linearToken c <> "" ->
  linearUser world (linearToken c) (Schema.userId data) = inr actor ->
  linearIssue world (linearToken c) (Schema.issue_id (Schema.issue data)) = inr found ->
  issueAssignee world (linearToken c) found = inr <$> who ->
  JsString.split "/" url !! 5 = Some piece ->
  enrich world c (Schema.CommentEvent Schema.CREATE createdAt url data)
  = (Resolved (LinearUser (linearToken c) (Schema.userId data))
     :: Resolved (LinearIssue (linearToken c) (Schema.issue_id (Schema.issue data)))
     :: issueAssigneeCalls (linearToken c) found,
     inr (mkLocals (commentCreatedEmbed createdAt url (stripFragment piece) data actor)
            who (Some actor))).
Proof.
  intros Hkey Hactor Hfound Hwho Hpiece.
  rewrite (enrich_classify _ _ _ Hkey).
  unfold classify. rewrite CREATE_decided. unfold commentCreated.
  rewrite Hactor, bind_resolved, Hfound, bind_resolved.
  rewrite (parseIdentifier_piece url piece Hpiece), bind_ret.
  unfold issueAssignee, issueAssigneeCalls in *.
  destruct (Issue.assignee found) as [id|]; destruct who as [a|];
    simpl in Hwho; try discriminate.
  - injection Hwho as Hwho. rewrite bind_started, Hwho. reflexivity.
  - reflexivity.
Qed.

(** C9: for a created comment the first call fetches the actor by the
    comment's user id; when it resolves, the second fetches the parent issue
    by its id; and when that issue has an assignee, its assignee property is
    read twice, each read a user query for the assignee's id, the second one
    awaited, before the one dispatch, whose content is computed from that
    awaited assignee and the actor: nothing when they are the same person,
    the mention of the id the table maps the assignee's display name to
    otherwise.  An issue without assignee gives no content. *)
Theorem comment_assignee_from_issue
    (SCHEMA_safeParse : Js.Json -> option Schema.Event)
    (world : World) (req : Request) (c : Credentials)
    (createdAt url : string) (data : Schema.CommentData) :
  admitted world req -> hasCredentials req c -> linearToken c <> "" ->
  SCHEMA_safeParse (body req)
  = Some (Schema.CommentEvent Schema.CREATE createdAt url data) ->
  let userCall := LinearUser (linearToken c) (Schema.userId data) in
  let issueCall := LinearIssue (linearToken c) (Schema.issue_id (Schema.issue data)) in
  (exists rest,
      fst (handler SCHEMA_safeParse world req)
      = outcome userCall (linearUser world (linearToken c) (Schema.userId data)) :: rest)
  /\ (forall actor,
         linearUser world (linearToken c) (Schema.userId data) = inr actor ->
         exists rest,
           fst (handler SCHEMA_safeParse world req)
           = Resolved userCall
             :: outcome issueCall
                  (linearIssue world (linearToken c) (Schema.issue_id (Schema.issue data)))
             :: rest)
  /\ (forall actor found id who piece,
         linearUser world (linearToken c) (Schema.userId data) = inr actor ->
         linearIssue world (linearToken c) (Schema.issue_id (Schema.issue data)) = inr found ->
         Issue.assignee found = Some id ->
         linearUser world (linearToken c) id = inr who ->
         JsString.split "/" url !! 5 = Some piece ->
         exists msg,
           fst (handler SCHEMA_safeParse world req)
           = [Resolved userCall; Resolved issueCall;
              Started (LinearUser (linearToken c) id);
              Resolved (LinearUser (linearToken c) id);
              dispatched world (webhookUrlOf c) msg]
           /\ content msg = expectedContent (Some who) actor)
  /\ (forall actor found piece,
         linearUser world (linearToken c) (Schema.userId data) = inr actor ->
         linearIssue world (linearToken c) (Schema.issue_id (Schema.issue data)) = inr found ->
         Issue.assignee found = None ->
         JsString.split "/" url !! 5 = Some piece ->
         exists msg,
           fst (handler SCHEMA_safeParse world req)
           = [Resolved userCall; Resolved issueCall;
              dispatched world (webhookUrlOf c) msg]
           /\ content msg = None).
Proof.
  intros Hadm Hc Hkey Hevent userCall issueCall.
  rewrite (handler_trace_validated _ _ _ c _ Hadm Hc Hevent).
  split; [|split; [|split]].
  - destruct (relay_trace world c (Schema.CommentEvent Schema.CREATE createdAt url data))
      as [rest ->].
    rewrite (enrich_classify _ _ _ Hkey).
    unfold classify. rewrite CREATE_decided. unfold commentCreated.
    destruct (linearUser world _ _) as [reason|actor].
    + rewrite bind_rejected. simpl. eauto.
    + rewrite bind_resolved. simpl. eauto.
  - intros actor Hactor.
    destruct (relay_trace world c (Schema.CommentEvent Schema.CREATE createdAt url data))
      as [rest ->].
    rewrite (enrich_classify _ _ _ Hkey).
    unfold classify. rewrite CREATE_decided. unfold commentCreated.
    rewrite Hactor, bind_resolved.
    destruct (linearIssue world _ _) as [reason|found].
    + rewrite bind_rejected. simpl. eauto.
    + rewrite bind_resolved. simpl. eauto.
  - intros actor found id who piece Hactor Hfound Hid Hwho Hpiece.
    rewrite relay_enriched.
    rewrite (commentCreated_enriched world c createdAt url data actor found (Some who) piece
               Hkey Hactor Hfound) by (try assumption; unfold issueAssignee;
                                       rewrite Hid; simpl; now rewrite Hwho).
    unfold issueAssigneeCalls. rewrite Hid, messageOf_recipe. simpl.
    eexists. split; reflexivity.
  - intros actor found piece Hactor Hfound Hid Hpiece.
    rewrite relay_enriched.
    rewrite (commentCreated_enriched world c createdAt url data actor found None piece
               Hkey Hactor Hfound) by (try assumption; unfold issueAssignee;
                                       now rewrite Hid).
    unfold issueAssigneeCalls. rewrite Hid, messageOf_recipe. simpl.
    eexists. split; reflexivity.
Qed.

Lemma comment_assignee_from_issue_witness :
  exists msg,
    fst (handler SchemaModel.safeParse Sample.production Sample.commentOnKongsIssue)
    = [Resolved (LinearUser "lin_api_key" "u-aki");
       Resolved (LinearIssue "lin_api_key" "issue-1");
       Started (LinearUser "lin_api_key" "u-kong");
       Resolved (LinearUser "lin_api_key" "u-kong");
       dispatched Sample.production "https://discord.com/api/webhooks/1042/s3cr3t" msg]
    /\ content msg = Some "ðŸ‘‹ <@152805815097491456>".
Proof.
  refine (proj1 (proj2 (proj2
            (comment_assignee_from_issue SchemaModel.safeParse Sample.production
               Sample.commentOnKongsIssue Sample.credentials
               "2022-03-01T10:05:00.000Z" Sample.commentUrl
               (Schema.mkCommentData "u-aki" (Schema.mkIssueRef "issue-1" "Fix login")
                  "Looks good")
               (sample_admitted _) (sample_hasCredentials _) _ eq_refl)))
            Sample.aki (Issue.mk (Some "u-kong")) "u-kong" Sample.kong
            "ENG-123#comment-1" _ _ _ _ _); try reflexivity.
  discriminate.
Defined.

(** ** Issues *)

(** The two fields of a created issue are accepted when the state has a
    name; the Team value is never empty. *)
Lemma addFields_team_status (teamValue status : string) (e : Embed.t) :
  status <> "" ->
  Embed.addFields
    [Embed.mkField "Team" ("[" +:+ teamValue) true; Embed.mkField "Status" status true] e
  = inr (Embed.mk (Embed.color e) (Embed.timestamp e) (Embed.title e) (Embed.url e)
           (Embed.author e) (Embed.footer e)
           (Embed.fields e
            ++ [Embed.mkField "Team" ("[" +:+ teamValue) true;
                Embed.mkField "Status" status true])
           (Embed.description e)).
Proof.
  intros Hstatus. unfold Embed.addFields, Embed.normalizeFields, Embed.normalizeField.
  simpl. now rewrite (proj2 (String.eqb_neq status "") Hstatus).
Qed.

Lemma addFields_unnamed_status (teamValue : string) (e : Embed.t) :
  Embed.addFields
    [Embed.mkField "Team" ("[" +:+ teamValue) true; Embed.mkField "Status" "" true] e
  = inl (Embed.RangeError "EMBED_FIELD_VALUE").
Proof. reflexivity. Qed.

Lemma addFields_assignee (value : string) (e : Embed.t) :
  Embed.addFields [Embed.mkField "Assignee" ("[" +:+ value) true] e
  = inr (Embed.mk (Embed.color e) (Embed.timestamp e) (Embed.title e) (Embed.url e)
           (Embed.author e) (Embed.footer e)
           (Embed.fields e ++ [Embed.mkField "Assignee" ("[" +:+ value) true])
           (Embed.description e)).
Proof. reflexivity. Qed.

(** The enrichment of a created issue whose lookups resolve and whose state
    has a name. *)
Lemma issueCreated_enriched world (c : Credentials) (createdAt url : string)
    (data : Schema.IssueData) (updatedFrom : option Schema.UpdatedFrom)
    (actor : User.t) (who : option User.t) (piece : string) :
  linearToken c <> "" ->
  linearUser world (linearToken c) (Schema.creatorId data) = inr actor ->
  Schema.state_name (Schema.state data) <> "" ->
  assigneeLookup world (linearToken c) data = inr <$> who ->
  JsString.split "/" url !! 5 = Some piece ->
  enrich world c (Schema.IssueEvent Schema.CREATE createdAt url data updatedFrom)
  = (Resolved (LinearUser (linearToken c) (Schema.creatorId data))
     :: assigneeCall (linearToken c) data,
     inr (mkLocals (issueCreatedEmbed createdAt url (stripFragment piece) data actor who)
            who (Some actor))).
Proof.
  intros Hkey Hactor Hname Hwho Hpiece.
  rewrite (enrich_classify _ _ _ Hkey).
  unfold classify. rewrite CREATE_decided. unfold issueCreated.
  rewrite Hactor, bind_resolved, (parseIdentifier_piece url piece Hpiece), bind_ret.
  change ("[" +:+ Schema.team_name (Schema.team data) +:+ "]("
          +:+ (LINEAR_BASE_URL +:+ "/team/" +:+ Schema.team_key (Schema.team data)) +:+ ")")
    with ("[" +:+ (Schema.team_name (Schema.team data) +:+ "](https://linear.app/team/"
                   +:+ Schema.team_key (Schema.team data) +:+ ")")).
  rewrite (addFields_team_status _ _ _ Hname), built_ok, bind_ret.
  unfold assigneeLookup, assigneeCall in *.
  destruct (Schema.assignee data) as [ref|] eqn:Href; destruct who as [a|];
    simpl in Hwho; try discriminate.
  - injection Hwho as Hwho. rewrite Hwho, bind_resolved.
    change ("[" +:+ User.displayName a +:+ "](" +:+ User.url a +:+ ")")
      with ("[" +:+ (User.displayName a +:+ "](" +:+ User.url a +:+ ")")).
    rewrite addFields_assignee, built_ok, !bind_ret.
    unfold issueCreatedEmbed. simpl.
    destruct (Schema.description data) as [[|ch text]|]; reflexivity.
  - rewrite bind_ret. unfold issueCreatedEmbed. simpl.
    destruct (Schema.description data) as [[|ch text]|]; reflexivity.
Qed.

(** The enrichment of a status change whose lookups resolve and whose state
    color resolves. *)
Lemma statusChanged_enriched world (c : Credentials) (createdAt url : string)
    (data : Schema.IssueData) (updatedFrom : option Schema.UpdatedFrom)
    (actor : User.t) (who : option User.t) (piece : string) (color : Embed.Color) :
  linearToken c <> "" ->
  Schema.statusChanged updatedFrom = true ->
  linearUser world (linearToken c) (Schema.creatorId data) = inr actor ->
  Embed.resolveColor (random world) (Schema.state_color (Schema.state data)) = inr color ->
  assigneeLookup world (linearToken c) data = inr <$> who ->
  JsString.split "/" url !! 5 = Some piece ->
  enrich world c (Schema.IssueEvent Schema.UPDATE createdAt url data updatedFrom)
  = (Resolved (LinearUser (linearToken c) (Schema.creatorId data))
     :: assigneeCall (linearToken c) data,
     inr (mkLocals (statusChangedEmbed color createdAt url (stripFragment piece) data actor)
            who (Some actor))).
Proof.
  intros Hkey Hchanged Hactor Hcolor Hwho Hpiece.
  rewrite (enrich_classify _ _ _ Hkey).
  unfold classify.
  destruct (decide (Schema.UPDATE = Schema.CREATE)) as [Heq|_]; [discriminate|].
  rewrite bool_decide_eq_true_2 by reflexivity. rewrite Hchanged. simpl andb. cbv iota.
  unfold issueStatusChanged.
  rewrite Hactor, bind_resolved, (parseIdentifier_piece url piece Hpiece), bind_ret.
  unfold assigneeLookup, assigneeCall, Embed.setColor in *. rewrite Hcolor.
  destruct (Schema.assignee data) as [ref|] eqn:Href; destruct who as [a|];
    simpl in Hwho; try discriminate.
  - injection Hwho as Hwho. rewrite Hwho. reflexivity.
  - reflexivity.
Qed.

(** ** Mentions *)

Lemma table_values_nonempty name id :
  LINEAR_DISPLAY_NAME_TO_DISCORD_ID !! name = Some id -> String.eqb id "" = false.
Proof.
  intros H. apply elem_of_list_to_map_2 in H.
  repeat (apply elem_of_cons in H as [[= -> ->]|H]; [reflexivity|]).
  now apply elem_of_nil in H.
Qed.

(** Without both people there is no mention. *)
Lemma no_mention_without_assignee actor : messageContent (discordUserId None actor) = None.
Proof. reflexivity. Qed.

Lemma no_mention_without_actor who : messageContent (discordUserId who None) = None.
Proof. now destruct who. Qed.

(** The same person is never mentioned. *)
Lemma no_mention_of_oneself who actor :
  User.id who = User.id actor ->
  messageContent (discordUserId (Some who) (Some actor)) = None.
Proof.
  intros H. unfold discordUserId. rewrite H, String.eqb_refl. reflexivity.
Qed.

(** For a display name that is not the name of a member of
    [Object.prototype], the content is what the mention rule says. *)
Lemma mention_of_plain_name who actor :
  Js.OBJECT_PROTOTYPE !! User.displayName who = None ->
  messageContent (discordUserId (Some who) (Some actor)) = mentionFor who actor.
Proof.
  intros Hplain. unfold discordUserId, mentionFor.
  destruct (decide (User.id who = User.id actor)) as [Heq|Hne].
  - rewrite Heq, String.eqb_refl. reflexivity.
  - apply String.eqb_neq in Hne. rewrite Hne. simpl. unfold Js.get.
    destruct (LINEAR_DISPLAY_NAME_TO_DISCORD_ID !! User.displayName who) as [id|] eqn:E.
    + unfold messageContent. simpl.
      now rewrite (table_values_nonempty _ _ E).
    + now rewrite Hplain.
Qed.

(** C2, at the input where the code departs from it: the assignee's
    display name, constructor, is not a key of the table and the assignee is
    not the actor, yet the dispatched message has a content, built from the
    member of that name that the table object inherits. *)
Theorem inherited_name_is_mentioned :
  LINEAR_DISPLAY_NAME_TO_DISCORD_ID !! User.displayName Sample.oddName = None
  /\ User.id Sample.oddName <> User.id Sample.aki
  /\ mentionFor Sample.oddName Sample.aki = None
  /\ exists msg,
      dispatches (fst (handler SchemaModel.safeParse Sample.production
                         Sample.issueForOddName))
      = [Resolved (Fetch "https://discord.com/api/webhooks/1042/s3cr3t" msg)]
      /\ content msg = Some (mention "function Object() { [native code] }").
Proof.
  split; [reflexivity|].
  split; [discriminate|].
  split; [reflexivity|].
  eexists. split; vm_compute; reflexivity.
Qed.


(** For an issue event with a recipe whose lookups resolve and whose values
    the chat library accepts, the one dispatch carries the mention computed
    from the fetched assignee and the fetched actor, and no content when the
    issue has no assignee. *)
Lemma issue_mention (SCHEMA_safeParse : Js.Json -> option Schema.Event)
    (world : World) (req : Request) (c : Credentials)
    (action : Schema.Action) (createdAt url : string)
    (data : Schema.IssueData) (updatedFrom : option Schema.UpdatedFrom)
    (actor : User.t) (piece : string) :
  admitted world req -> hasCredentials req c -> linearToken c <> "" ->
  SCHEMA_safeParse (body req)
  = Some (Schema.IssueEvent action createdAt url data updatedFrom) ->
  handled (Schema.IssueEvent action createdAt url data updatedFrom) = true ->
  recipeAccepted world (Schema.IssueEvent action createdAt url data updatedFrom) ->
  linearUser world (linearToken c) (Schema.creatorId data) = inr actor ->
  JsString.split "/" url !! 5 = Some piece ->
  (forall ref who,
      Schema.assignee data = Some ref ->
      linearUser world (linearToken c) (Schema.assignee_id ref) = inr who ->
      exists msg,
        fst (handler SCHEMA_safeParse world req)
        = [Resolved (LinearUser (linearToken c) (Schema.creatorId data));
           Resolved (LinearUser (linearToken c) (Schema.assignee_id ref));
           dispatched world (webhookUrlOf c) msg]
        /\ content msg = messageContent (discordUserId (Some who) (Some actor)))
  /\ (Schema.assignee data = None ->
      exists msg,
        fst (handler SCHEMA_safeParse world req)
        = [Resolved (LinearUser (linearToken c) (Schema.creatorId data));
           dispatched world (webhookUrlOf c) msg]
        /\ content msg = None).
Proof.
  intros Hadm Hc Hkey Hevent Hh Hacc Hactor Hpiece.
  rewrite (handler_trace_validated _ _ _ c _ Hadm Hc Hevent), relay_enriched.
  assert (Henriched : forall who,
             assigneeLookup world (linearToken c) data = inr <$> who ->
             exists e,
               enrich world c (Schema.IssueEvent action createdAt url data updatedFrom)
               = (Resolved (LinearUser (linearToken c) (Schema.creatorId data))
                  :: assigneeCall (linearToken c) data,
                  inr (mkLocals e who (Some actor)))).
  { intros who Hwho. simpl in Hh, Hacc.
    destruct (decide (action = Schema.CREATE)) as [->|Hne].
    - eexists. now apply issueCreated_enriched with (piece := piece).
    - rewrite (bool_decide_eq_false_2 _ Hne) in Hh. simpl in Hh.
      apply andb_true_iff in Hh as [Hupdate Hchanged].
      apply bool_decide_eq_true in Hupdate as ->.
      destruct Hacc as [color Hcolor].
      eexists. now apply statusChanged_enriched with (piece := piece) (color := color). }
  split.
  - intros ref who Href Hwho.
    destruct (Henriched (Some who)) as [e ->].
    { unfold assigneeLookup. rewrite Href. simpl. now rewrite Hwho. }
    unfold assigneeCall. rewrite Href. simpl.
    eexists. split; reflexivity.
  - intros Href.
    destruct (Henriched None) as [e ->].
    { unfold assigneeLookup. now rewrite Href. }
    unfold assigneeCall. rewrite Href. simpl.
    eexists. split; reflexivity.
Qed.

(** ** Every run of the handler *)

Lemma QUERY_SCHEMA_parse_inv (req : Request) (c : Credentials) :
  QUERY_SCHEMA_parse (query req) = ret c -> hasCredentials req c.
Proof.
  unfold QUERY_SCHEMA_parse, hasCredentials.
  destruct (query req !! "webhookId") as [[i|i]|]; try discriminate.
  destruct (query req !! "webhookToken") as [[t|t]|]; try discriminate.
  destruct (query req !! "linearToken") as [[l|l]|]; try discriminate.
  intros [= <-]. auto.
Qed.

Lemma QUERY_SCHEMA_parse_issues_nonempty (q : gmap string Js.StringOrArray) issues :
  QUERY_SCHEMA_parse q = throw (ZodError issues) -> issues <> [].
Proof.
  unfold QUERY_SCHEMA_parse.
  destruct (q !! "webhookId") as [[i|i]|];
    destruct (q !! "webhookToken") as [[t|t]|];
    destruct (q !! "linearToken") as [[l|l]|];
    intros [= <-]; discriminate.
Qed.

Lemma gate_cases (world : World) (req : Request) :
  method req <> Some "POST"
  \/ (isPost req /\ ~ development world /\ ~ trustedCaller req)
  \/ admitted world req.
Proof.
  destruct (decide (method req = Some "POST")) as [Hpost|Hpost]; [|now left].
  right.
  destruct (decide (NODE_ENV world = Some "development")) as [Hdev|Hdev].
  { right. split; [exact Hpost | now left]. }
  destruct (Zod.enumAccepts LINEAR_TRUSTED_IPS (Js.orEmpty (forwardedForHeader req))) eqn:E.
  - right. split; [exact Hpost|]. right. now apply enumAccepts_trusted.
  - left. repeat split; [exact Hpost | exact Hdev |].
    intros Hip. apply enumAccepts_trusted in Hip. congruence.
Qed.

(** The handler ends in one of the seven ways of [Answer]. *)
Lemma handler_answer (SCHEMA_safeParse : Js.Json -> option Schema.Event)
    (world : World) (req : Request) :
  Answer SCHEMA_safeParse world req
    (fst (handler SCHEMA_safeParse world req))
    (snd (handler SCHEMA_safeParse world req)).
Proof.
  destruct (gate_cases world req) as [Hm|[(Hpost & Hdev & Hip)|Hadm]].
  - unfold handler. rewrite attempt_not_post by exact Hm. now apply WrongMethod.
  - unfold handler. rewrite attempt_refused by assumption. now apply Refused.
  - unfold handler. rewrite attempt_admitted by exact Hadm.
    destruct (QUERY_SCHEMA_parse_cases (query req)) as [[c Hq]|[issues Hq]]; rewrite Hq.
    + apply QUERY_SCHEMA_parse_inv in Hq. rewrite bind_ret.
      destruct (SCHEMA_safeParse (body req)) as [event|] eqn:Hevent.
      * rewrite relay_enriched.
        pose proof (quiet_enrich world c event) as (_ & Hthrown & _).
        destruct (enrich world c event) as [lookups [e|st]] eqn:Hclass; simpl in *.
        -- destruct (Hthrown e eq_refl) as [description ->].
           eapply Failed; eauto.
        -- unfold dispatched, outcome.
           destruct (fetch world (webhookUrlOf c) (messageOf st)) as [reason|done] eqn:Hf;
             simpl.
           ++ eapply Undelivered; eauto.
           ++ eapply Delivered; eauto.
      * simpl. eapply Skipped; eauto.
    + rewrite bind_throw. simpl. apply BadQuery; auto.
      eapply QUERY_SCHEMA_parse_issues_nonempty; eauto.
Qed.

Lemma enriched_no_fetch world c event lookups result o :
  enrich world c event = (lookups, result) ->
  o ∈ lookups -> isFetch o = false.
Proof.
  intros Hc Ho. apply (quiet_enrich world c event). now rewrite Hc.
Qed.

Ltac no_fetch_in_lookups :=
  match goal with
  | Hc : enrich _ _ _ = (?t, _), Hin : _ ∈ ?t |- _ =>
      let Hno := fresh in
      pose proof (enriched_no_fetch _ _ _ _ _ _ Hc Hin) as Hno; discriminate Hno
  end.

(** X1: the handler calls nothing before the request is admitted, carries
    the three credentials and holds a validated event. *)
Theorem no_call_before_validation (SCHEMA_safeParse : Js.Json -> option Schema.Event)
    (world : World) (req : Request) :
  fst (handler SCHEMA_safeParse world req) <> [] ->
  admitted world req
  /\ exists c event,
      hasCredentials req c /\ SCHEMA_safeParse (body req) = Some event.
Proof.
  intros Hcalls.
  pose proof (handler_answer SCHEMA_safeParse world req) as H.
  destruct (handler SCHEMA_safeParse world req) as [t r]; simpl in *.
  inversion H; subst; try contradiction; eauto.
Qed.

Lemma no_call_before_validation_witness :
  admitted Sample.production Sample.issueForKong
  /\ exists c event,
      hasCredentials Sample.issueForKong c
      /\ SchemaModel.safeParse (body Sample.issueForKong) = Some event.
Proof.
  apply (no_call_before_validation SchemaModel.safeParse Sample.production
           Sample.issueForKong).
  vm_compute. discriminate.
Defined.

(** X2: the trace of every run is a list of lookups, followed by at most
    one dispatch, which is then the last call. *)
Theorem dispatch_single_and_last (SCHEMA_safeParse : Js.Json -> option Schema.Event)
    (world : World) (req : Request) :
  exists lookups,
    (forall o, o ∈ lookups -> isFetch o = false)
    /\ (fst (handler SCHEMA_safeParse world req) = lookups
        \/ exists url msg,
            fst (handler SCHEMA_safeParse world req)
            = lookups ++ [dispatched world url msg]).
Proof.
  pose proof (handler_answer SCHEMA_safeParse world req) as H.
  destruct (handler SCHEMA_safeParse world req) as [t r]; simpl in *.
  assert (Hnil : forall o : Outcome, o ∈ [] -> isFetch o = false).
  { intros o Ho. now apply elem_of_nil in Ho. }
  inversion H; subst; try (exists []; split; [exact Hnil | now left]).
  - exists t. split; [|now left].
    intros o Ho. eapply enriched_no_fetch; eauto.
  - exists lookups. split.
    + intros o Ho. eapply enriched_no_fetch; eauto.
    + right. exists (webhookUrlOf c), (messageOf st).
      unfold dispatched, outcome.
      match goal with Hf : fetch _ _ _ = _ |- _ => now rewrite Hf end.
  - exists lookups. split.
    + intros o Ho. eapply enriched_no_fetch; eauto.
    + right. exists (webhookUrlOf c), (messageOf st).
      unfold dispatched, outcome.
      match goal with Hf : fetch _ _ _ = _ |- _ => now rewrite Hf end.
Qed.

(** X3: a response is either a success with status 200, a message and no
    error, or a failure with no message and an error: a text with status
    405, 403 or 500 (the generic text for 500), or a non-empty list of
    issues with status 400. *)
Theorem response_shape (SCHEMA_safeParse : Js.Json -> option Schema.Event)
    (world : World) (req : Request) :
  let r := snd (handler SCHEMA_safeParse world req) in
  (statusCode r = 200 /\ success (envelope r) = true /\ error (envelope r) = ErrNull
   /\ (message (envelope r) = Some "OK" \/ message (envelope r) = Some "Event skipped."))
  \/ (success (envelope r) = false /\ message (envelope r) = None
      /\ ((exists text, error (envelope r) = ErrText text
                        /\ (statusCode r = 405 \/ statusCode r = 403))
          \/ (statusCode r = 500 /\ error (envelope r) = ErrText "Something went wrong.")
          \/ (statusCode r = 400
              /\ exists issues, error (envelope r) = ErrIssues issues /\ issues <> []))).
Proof.
  pose proof (handler_answer SCHEMA_safeParse world req) as H.
  destruct (handler SCHEMA_safeParse world req) as [t r]; simpl in *.
  inversion H; subst; simpl.
  - right. repeat split. left. eauto.
  - right. repeat split. left. eauto.
  - right. repeat split. right. right. eauto.
  - left. auto.
  - right. repeat split. right. left. auto.
  - right. repeat split. right. left. auto.
  - left. auto.
Qed.

(** X4: the handler answers with the success response "OK" exactly when a
    dispatch was made and resolved. *)
Theorem ok_iff_delivered (SCHEMA_safeParse : Js.Json -> option Schema.Event)
    (world : World) (req : Request) :
  snd (handler SCHEMA_safeParse world req) = okResponse
  <-> exists url msg, Resolved (Fetch url msg) ∈ fst (handler SCHEMA_safeParse world req).
Proof.
  pose proof (handler_answer SCHEMA_safeParse world req) as H.
  destruct (handler SCHEMA_safeParse world req) as [t r]; simpl in *.
  split.
  - intros ->. inversion H; subst.
    exists (webhookUrlOf c), (messageOf st).
    apply elem_of_app. right. apply list_elem_of_here.
  - intros (url & msg & Hin).
    inversion H; subst; try (now apply elem_of_nil in Hin); try reflexivity.
    + no_fetch_in_lookups.
    + apply elem_of_app in Hin as [Hin|Hin]; [no_fetch_in_lookups|].
      apply list_elem_of_singleton in Hin. discriminate.
Qed.

(** X5: when the dispatch is rejected, the handler answers 500 with the
    generic message. *)
Theorem dispatch_failure_500 (SCHEMA_safeParse : Js.Json -> option Schema.Event)
    (world : World) (req : Request) (url : string) (msg : Message) (reason : string) :
  Rejected (Fetch url msg) reason ∈ fst (handler SCHEMA_safeParse world req) ->
  snd (handler SCHEMA_safeParse world req) = genericFailure.
Proof.
  intros Hin.
  pose proof (handler_answer SCHEMA_safeParse world req) as H.
  destruct (handler SCHEMA_safeParse world req) as [t r]; simpl in *.
  inversion H; subst; try (now apply elem_of_nil in Hin); try reflexivity.
  apply elem_of_app in Hin as [Hin|Hin]; [no_fetch_in_lookups|].
  apply list_elem_of_singleton in Hin. discriminate.
Qed.

Lemma dispatch_failure_500_witness :
  snd (handler SchemaModel.safeParse Sample.chatDown Sample.titleEdited) = genericFailure.
Proof.
  apply (dispatch_failure_500 SchemaModel.safeParse Sample.chatDown Sample.titleEdited
           "https://discord.com/api/webhooks/1042/s3cr3t"
           (bareMessage "2022-03-01T10:00:00.000Z") "fetch failed").
  vm_compute. apply list_elem_of_here.
Defined.

(** ** Bounds on what classification calls *)

Lemma within_ret {A} (n : nat) (P : Outcome -> Prop) (Q : A -> Prop) (a : A) :
  Q a -> within n P Q (ret a).
Proof.
  intros H. repeat split; simpl; [lia | constructor |].
  now intros a' [= <-].
Qed.

Lemma within_throw {A} (n : nat) (P : Outcome -> Prop) (Q : A -> Prop) (e : Thrown) :
  within n P Q (@throw A e).
Proof. repeat split; simpl; [lia | constructor | discriminate]. Qed.

Lemma within_await {A} (P : Outcome -> Prop) (c : Call) (result : string + A) :
  P (Resolved c) -> (forall reason, P (Rejected c reason)) ->
  within 1 P (fun a => result = inr a) (await c result).
Proof.
  intros Hok Hbad. destruct result as [reason|a]; repeat split; simpl;
    try lia; try (repeat constructor; auto); try discriminate.
  now intros a' [= <-].
Qed.

Lemma within_bind {A B} (n1 n2 n : nat) (P : Outcome -> Prop)
    (Q1 : A -> Prop) (Q2 : B -> Prop) (m : Run A) (k : A -> Run B) :
  within n1 P Q1 m -> (forall a, Q1 a -> within n2 P Q2 (k a)) ->
  n1 + n2 <= n ->
  within n P Q2 (bind m k).
Proof.
  intros (Hn & HP & HQ) Hk Hle. unfold within, bind.
  destruct m as [t [e|a]]; simpl in *.
  - repeat split; [lia | exact HP | discriminate].
  - destruct (Hk a (HQ a eq_refl)) as (Hn' & HP' & HQ').
    destruct (k a) as [t' r]; simpl in *.
    repeat split.
    + rewrite length_app. lia.
    + now apply Forall_app.
    + exact HQ'.
Qed.

Lemma within_weaken {A} (n n' : nat) (P : Outcome -> Prop) (Q Q' : A -> Prop) (m : Run A) :
  within n P Q m -> n <= n' -> (forall a, Q a -> Q' a) -> within n' P Q' m.
Proof.
  intros (Hn & HP & HQ) Hle Himp. repeat split; [lia | exact HP | auto].
Qed.

Lemma within_parseIdentifier (P : Outcome -> Prop) url :
  within 0 P (fun _ => True) (parseIdentifier url).
Proof.
  unfold parseIdentifier.
  destruct (JsString.split "/" url !! 5) as [piece|]; [|apply within_throw].
  destruct (JsString.split "#" piece); now apply within_ret.
Qed.

Lemma within_start (P : Outcome -> Prop) (c : Call) :
  P (Started c) -> within 1 P (fun _ => True) (start c).
Proof. intros H. repeat split; simpl; [lia | repeat constructor; auto]. Qed.

Lemma within_built {A} (n : nat) (P : Outcome -> Prop) (result : Embed.Failure + A) :
  within n P (fun a => result = inr a) (built result).
Proof.
  destruct result as [[code|code]|a]; [apply within_throw.. | now apply within_ret].
Qed.

Lemma within_LinearClient_new (n : nat) (P : Outcome -> Prop) apiKey :
  within n P (fun _ => True) (LinearClient_new apiKey).
Proof.
  unfold LinearClient_new.
  destruct (String.eqb apiKey ""); [apply within_throw | now apply within_ret].
Qed.

Lemma within_user world apiKey id :
  within 1 (lookupWith apiKey) (fun _ : User.t => True)
    (await (LinearUser apiKey id) (linearUser world apiKey id)).
Proof.
  eapply within_weaken; [apply within_await| |]; auto; intros; reflexivity.
Qed.

Lemma within_issue world apiKey id :
  within 1 (lookupWith apiKey) (fun _ : Issue.t => True)
    (await (LinearIssue apiKey id) (linearIssue world apiKey id)).
Proof.
  eapply within_weaken; [apply within_await| |]; auto; intros; reflexivity.
Qed.

Lemma addFields_timestamp fs e e' :
  Embed.addFields fs e = inr e' -> Embed.timestamp e' = Embed.timestamp e.
Proof.
  unfold Embed.addFields. destruct (Embed.normalizeFields fs); [discriminate|].
  now intros [= <-].
Qed.

Lemma setColor_timestamp random color e e' :
  Embed.setColor random color e = inr e' -> Embed.timestamp e' = Embed.timestamp e.
Proof.
  unfold Embed.setColor. destruct (Embed.resolveColor random color); [discriminate|].
  now intros [= <-].
Qed.

(** Classification makes at most four calls, each a lookup with the given
    key, and leaves the embed's timestamp as it was. *)
Lemma within_classify world apiKey event st :
  within 4 (lookupWith apiKey)
    (fun st' => Embed.timestamp (embed st') = Embed.timestamp (embed st))
    (classify world apiKey event st).
Proof.
  destruct event as [action createdAt url data updatedFrom|action createdAt url data];
    unfold classify.
  - destruct (decide (action = Schema.CREATE)).
    + unfold issueCreated.
      eapply (within_bind 1 1 4); [apply within_user | intros actor _ | lia].
      eapply (within_bind 0 1 1); [apply within_parseIdentifier | intros identifier _ | lia].
      eapply (within_bind 0 1 1); [apply within_built | intros emb He | lia].
      apply addFields_timestamp in He. simpl in He.
      eapply (within_bind 1 0 1)
        with (Q1 := fun st1 => Embed.timestamp (embed st1) = Embed.timestamp (embed st));
        [|intros st1 Hst1|lia].
      * destruct (Schema.assignee data) as [ref|].
        -- eapply (within_bind 1 0 1); [apply within_user | intros who _ | lia].
           eapply (within_bind 0 0 0); [apply within_built | intros emb' He' | lia].
           apply addFields_timestamp in He'.
           apply within_ret. simpl. congruence.
        -- now apply within_ret.
      * destruct (Js.truthy (Schema.description data)); now apply within_ret.
    + destruct (bool_decide (action = Schema.UPDATE) && Schema.statusChanged updatedFrom).
      * unfold issueStatusChanged.
        eapply (within_bind 1 1 4); [apply within_user | intros actor _ | lia].
        eapply (within_bind 0 1 1); [apply within_parseIdentifier | intros identifier _ | lia].
        eapply (within_bind 1 0 1) with (Q1 := fun _ => True); [|intros who _|lia].
        -- destruct (Schema.assignee data) as [ref|].
           ++ eapply (within_bind 1 0 1); [apply within_user | intros who _ | lia].
              now apply within_ret.
           ++ now apply within_ret.
        -- eapply (within_bind 0 0 0); [apply within_built | intros emb He | lia].
           apply setColor_timestamp in He.
           apply within_ret. simpl. exact He.
      * now apply within_ret.
  - destruct (decide (action = Schema.CREATE)).
    + unfold commentCreated.
      eapply (within_bind 1 3 4); [apply within_user | intros actor _ | lia].
      eapply (within_bind 1 2 3); [apply within_issue | intros found _ | lia].
      eapply (within_bind 0 2 2); [apply within_parseIdentifier | intros identifier _ | lia].
      eapply (within_bind 2 0 2) with (Q1 := fun _ => True); [|intros who _|lia].
      * destruct (Issue.assignee found) as [id|].
        -- eapply (within_bind 1 1 2); [now apply within_start | intros _ _ | lia].
           eapply (within_bind 1 0 1); [apply within_user | intros who _ | lia].
           now apply within_ret.
        -- now apply within_ret.
      * now apply within_ret.
    + now apply within_ret.
Qed.

Lemma within_enrich world c event :
  within 4 (lookupWith (linearToken c))
    (fun st => Embed.timestamp (embed st) = Js.DateOf (Schema.createdAt event))
    (enrich world c event).
Proof.
  unfold enrich. rewrite Embed_new_brand, built_ok, bind_ret.
  eapply (within_bind 0 4 4); [apply within_LinearClient_new | intros _ _ | lia].
  apply within_classify.
Qed.

Lemma enriched_within world c event lookups result :
  enrich world c event = (lookups, result) ->
  length lookups <= 4
  /\ Forall (lookupWith (linearToken c)) lookups
  /\ (forall st, result = inr st ->
      Embed.timestamp (embed st) = Js.DateOf (Schema.createdAt event)).
Proof.
  intros Hc. pose proof (within_enrich world c event) as H.
  unfold within in H. now rewrite Hc in H.
Qed.

(** X6: every dispatch goes to the chat webhook URL made of the query's
    webhookId and webhookToken, under the sender name Linear and its avatar,
    with exactly one embed, whose timestamp is the instant the runtime reads
    from the event's creation time. *)
Theorem dispatch_to_webhook (SCHEMA_safeParse : Js.Json -> option Schema.Event)
    (world : World) (req : Request) (o : Outcome) :
  o ∈ fst (handler SCHEMA_safeParse world req) ->
  isFetch o = true ->
  exists c event msg e,
    hasCredentials req c
    /\ SCHEMA_safeParse (body req) = Some event
    /\ callOf o
       = Fetch ("https://discord.com/api/webhooks/" +:+ webhookId c
                +:+ "/" +:+ webhookToken c) msg
    /\ username msg = "Linear"
    /\ avatar_url msg = "https://ldw.screfy.com/static/linear.png"
    /\ embeds msg = [e]
    /\ Embed.timestamp e = Js.DateOf (Schema.createdAt event).
Proof.
  intros Hin Hfetch.
  pose proof (handler_answer SCHEMA_safeParse world req) as H.
  destruct (handler SCHEMA_safeParse world req) as [t r]; simpl in *.
  inversion H; subst; try (now apply elem_of_nil in Hin).
  - exfalso.
    match goal with
    | Hc : enrich _ _ _ = _ |- _ =>
        pose proof (enriched_no_fetch _ _ _ _ _ _ Hc Hin) as Hno
    end.
    congruence.
  - apply elem_of_app in Hin as [Hin|Hin].
    + exfalso.
      match goal with
      | Hc : enrich _ _ _ = _ |- _ =>
          pose proof (enriched_no_fetch _ _ _ _ _ _ Hc Hin) as Hno
      end.
      congruence.
    + apply list_elem_of_singleton in Hin as ->.
      match goal with
      | Hc : enrich _ _ _ = _ |- _ =>
          destruct (enriched_within _ _ _ _ _ Hc) as (_ & _ & Hts)
      end.
      exists c, event, (messageOf st), (embed st).
      split; [assumption|]. split; [assumption|].
      repeat split. exact (Hts st eq_refl).
  - apply elem_of_app in Hin as [Hin|Hin].
    + exfalso.
      match goal with
      | Hc : enrich _ _ _ = _ |- _ =>
          pose proof (enriched_no_fetch _ _ _ _ _ _ Hc Hin) as Hno
      end.
      congruence.
    + apply list_elem_of_singleton in Hin as ->.
      match goal with
      | Hc : enrich _ _ _ = _ |- _ =>
          destruct (enriched_within _ _ _ _ _ Hc) as (_ & _ & Hts)
      end.
      exists c, event, (messageOf st), (embed st).
      split; [assumption|]. split; [assumption|].
      repeat split. exact (Hts st eq_refl).
Qed.

Lemma dispatch_to_webhook_witness :
  exists c event msg e,
    hasCredentials Sample.movedToDone c
    /\ SchemaModel.safeParse (body Sample.movedToDone) = Some event
    /\ callOf (Resolved
                 (Fetch "https://discord.com/api/webhooks/1042/s3cr3t"
                    (recipeMessage None Sample.aki
                       (statusChangedEmbed (Embed.Rgb 14869218)
                          "2022-03-01T10:00:00.000Z" Sample.issueUrl "ENG-123"
                          (Schema.mkIssueData "u-aki" "Fix login"
                             (Schema.mkTeam "ENG" "Engineering")
                             (Schema.mkState "Todo" "#e2e2e2") None None)
                          Sample.aki))))
       = Fetch ("https://discord.com/api/webhooks/" +:+ webhookId c
                +:+ "/" +:+ webhookToken c) msg
    /\ username msg = "Linear"
    /\ avatar_url msg = "https://ldw.screfy.com/static/linear.png"
    /\ embeds msg = [e]
    /\ Embed.timestamp e = Js.DateOf (Schema.createdAt event).
Proof.
  apply (dispatch_to_webhook SchemaModel.safeParse Sample.production Sample.movedToDone).
  - vm_compute. apply list_elem_of_further, list_elem_of_here.
  - reflexivity.
Defined.

(** X7: every lookup against the issue tracker, the reads of a fetched
    issue's assignee included, is made with the query's linearToken as the
    API key. *)
Theorem lookups_use_linearToken (SCHEMA_safeParse : Js.Json -> option Schema.Event)
    (world : World) (req : Request) (o : Outcome) :
  o ∈ fst (handler SCHEMA_safeParse world req) ->
  isFetch o = false ->
  exists apiKey,
    apiKeyOf (callOf o) = Some apiKey
    /\ query req !! "linearToken" = Some (Js.One apiKey).
Proof.
  intros Hin Hlookup.
  pose proof (handler_answer SCHEMA_safeParse world req) as H.
  destruct (handler SCHEMA_safeParse world req) as [t r]; simpl in *.
  assert (Hlook : forall c lookups,
             hasCredentials req c -> Forall (lookupWith (linearToken c)) lookups ->
             o ∈ lookups ->
             exists apiKey,
               apiKeyOf (callOf o) = Some apiKey
               /\ query req !! "linearToken" = Some (Js.One apiKey)).
  { intros c lookups (_ & _ & Hl) Hall Ho.
    rewrite Forall_forall in Hall. exists (linearToken c). split; [|exact Hl].
    exact (Hall o Ho). }
  inversion H; subst; try (now apply elem_of_nil in Hin);
    match goal with
    | Hc : enrich _ _ _ = _ |- _ =>
        destruct (enriched_within _ _ _ _ _ Hc) as (_ & Hall & _)
    end.
  - eapply Hlook; eauto.
  - apply elem_of_app in Hin as [Hin|Hin]; [eapply Hlook; eauto|].
    apply list_elem_of_singleton in Hin as ->. discriminate.
  - apply elem_of_app in Hin as [Hin|Hin]; [eapply Hlook; eauto|].
    apply list_elem_of_singleton in Hin as ->. discriminate.
Qed.

Lemma lookups_use_linearToken_witness :
  exists apiKey,
    apiKeyOf (callOf (Started (LinearUser "lin_api_key" "u-kong"))) = Some apiKey
    /\ query Sample.commentOnKongsIssue !! "linearToken" = Some (Js.One apiKey).
Proof.
  apply (lookups_use_linearToken SchemaModel.safeParse Sample.production
           Sample.commentOnKongsIssue (Started (LinearUser "lin_api_key" "u-kong"))).
  - vm_compute. do 2 apply list_elem_of_further. apply list_elem_of_here.
  - reflexivity.
Defined.

(** X8: the handler makes at most five network calls per request: the
    lookups of a created comment on an assigned issue (the actor, the issue,
    and two reads of the issue's assignee) and the dispatch. *)
Theorem at_most_five_calls (SCHEMA_safeParse : Js.Json -> option Schema.Event)
    (world : World) (req : Request) :
  length (fst (handler SCHEMA_safeParse world req)) <= 5.
Proof.
  pose proof (handler_answer SCHEMA_safeParse world req) as H.
  destruct (handler SCHEMA_safeParse world req) as [t r]; simpl in *.
  inversion H; subst; simpl; try lia;
    match goal with
    | Hc : enrich _ _ _ = _ |- _ =>
        destruct (enriched_within _ _ _ _ _ Hc) as (Hlen & _ & _)
    end;
    rewrite ?length_app; simpl; lia.
Qed.

(** ** The three recipes *)


Lemma handler_enrich_failed (SCHEMA_safeParse : Js.Json -> option Schema.Event)
    (world : World) (req : Request) (c : Credentials) (event : Schema.Event)
    (lookups : Trace) (description : string) :
  admitted world req -> hasCredentials req c ->
  SCHEMA_safeParse (body req) = Some event ->
  enrich world c event = (lookups, inl (OtherError description)) ->
  handler SCHEMA_safeParse world req = (lookups, genericFailure).
Proof.
  intros Hadm Hc Hevent Henrich. unfold handler.
  rewrite (attempt_validated _ _ _ c Hadm Hc), Hevent, relay_enriched, Henrich.
  reflexivity.
Qed.







(** ** The identifier of the tracker's URLs *)

Module JsStringMore.
Import JsString.

Lemma append_nil_r (s : string) : s +:+ "" = s.
Proof.
  induction s as [|c s IH]; [reflexivity|].
  change (String c (s +:+ "") = String c s). now rewrite IH.
Qed.

Lemma append_assoc (a b c : string) : (a +:+ b) +:+ c = a +:+ (b +:+ c).
Proof.
  induction a as [|ch a IH]; [reflexivity|].
  change (String ch ((a +:+ b) +:+ c) = String ch (a +:+ (b +:+ c))). now rewrite IH.
Qed.

Lemma split_free sep a : occurs sep a = false -> split sep a = [a].
Proof.
  induction a as [|c a IH]; simpl; [reflexivity|].
  destruct (decide (c = sep)); [discriminate|].
  intros H. now rewrite (IH H).
Qed.

Lemma split_app_sep sep a b :
  occurs sep a = false -> split sep (a +:+ String sep b) = a :: split sep b.
Proof.
  induction a as [|c a IH]; simpl.
  - intros _. now destruct (decide (sep = sep)).
  - destruct (decide (c = sep)); [discriminate|].
    intros H. now rewrite (IH H).
Qed.

Lemma before_all c s : occurs c s = false -> before c s = s.
Proof.
  induction s as [|d s IH]; simpl; [reflexivity|].
  destruct (decide (d = c)); [discriminate|].
  intros H. now rewrite (IH H).
Qed.

Lemma before_app_sep c a b : occurs c a = false -> before c (a +:+ String c b) = a.
Proof.
  induction a as [|d a IH]; simpl.
  - intros _. now destruct (decide (c = c)).
  - destruct (decide (d = c)); [discriminate|].
    intros H. now rewrite (IH H).
Qed.

Lemma before_app c a b : occurs c a = false -> before c (a +:+ b) = a +:+ before c b.
Proof.
  induction a as [|d a IH]; simpl; [reflexivity|].
  destruct (decide (d = c)); [discriminate|].
  intros H. now rewrite (IH H).
Qed.

(** Cutting a string short does not bring in a character it did not have. *)
Lemma occurs_before c d s : occurs c s = false -> occurs c (before d s) = false.
Proof.
  induction s as [|e s IH]; simpl; [reflexivity|].
  destruct (decide (e = c)); [discriminate|].
  intros H. destruct (decide (e = d)); simpl; [reflexivity|].
  destruct (decide (e = c)); [contradiction | auto].
Qed.

End JsStringMore.

Lemma ret_inj {A} (a b : A) : ret a = ret b -> a = b.
Proof. now intros [= ->]. Qed.

Lemma linear_url_sixth_piece workspace rest :
  JsString.occurs "/" workspace = false ->
  JsString.split "/" (LINEAR_BASE_URL +:+ "/" +:+ workspace +:+ "/issue/" +:+ rest) !! 5
  = Some (JsString.before "/" rest).
Proof.
  intros Hw.
  change (LINEAR_BASE_URL +:+ "/" +:+ workspace +:+ "/issue/" +:+ rest)
    with ("https:" +:+ String "/" ("" +:+ String "/" ("linear.app" +:+ String "/"
            (workspace +:+ String "/" ("issue" +:+ String "/" rest))))).
  rewrite !JsStringMore.split_app_sep by (reflexivity || exact Hw).
  change (JsString.split "/" rest !! 0 = Some (JsString.before "/" rest)).
  rewrite <- head_lookup. apply JsStringFacts.split_head.
Qed.

(** X12: for the address of an issue in the tracker's web application,
    https://linear.app/<workspace>/issue/<identifier>, alone or followed by
    a further path or by a fragment, the parse gives the identifier. *)
Theorem parseIdentifier_linear_url (workspace identifier tail : string) :
  JsString.occurs "/" workspace = false ->
  JsString.occurs "/" identifier = false ->
  JsString.occurs "#" identifier = false ->
  tail = "" \/ (exists t, tail = String "/" t) \/ (exists t, tail = String "#" t) ->
  parseIdentifier (linearIssueUrl workspace identifier +:+ tail) = ret identifier.
Proof.
  intros Hw Hslash Hhash Htail.
  unfold linearIssueUrl. rewrite !JsStringMore.append_assoc.
  rewrite (parseIdentifier_piece _ _ (linear_url_sixth_piece workspace _ Hw)).
  f_equal. unfold stripFragment.
  destruct Htail as [->|[[t ->]|[t ->]]].
  - rewrite JsStringMore.append_nil_r.
    now rewrite (JsStringMore.before_all "/"), JsStringMore.before_all.
  - rewrite JsStringMore.before_app_sep by exact Hslash.
    now apply JsStringMore.before_all.
  - rewrite JsStringMore.before_app by exact Hslash.
    change (JsString.before "/" (String "#" t))
      with (String "#" (JsString.before "/" t)).
    now apply JsStringMore.before_app_sep.
Qed.

Lemma parseIdentifier_linear_url_witness :
  parseIdentifier (linearIssueUrl "acme" "ENG-123" +:+ "/fix-login") = ret "ENG-123".
Proof.
  apply (parseIdentifier_linear_url "acme" "ENG-123" "/fix-login");
    try reflexivity.
  right. left. now exists "fix-login".
Defined.

(** X13: an identifier that the parse yields holds neither a '/' nor a
    '#'. *)
Theorem parseIdentifier_clean (url identifier : string) :
  parseIdentifier url = ret identifier ->
  JsString.occurs "/" identifier = false /\ JsString.occurs "#" identifier = false.
Proof.
  intros H.
  destruct (JsString.split "/" url !! 5) as [piece|] eqn:Hpiece.
  - rewrite (parseIdentifier_piece url piece Hpiece) in H.
    apply ret_inj in H as <-. unfold stripFragment. split.
    + apply JsStringMore.occurs_before.
      apply (JsStringFacts.split_pieces_free "/" url).
      apply list_elem_of_In. eapply list_elem_of_lookup_2; eauto.
    + apply JsStringFacts.before_free.
  - unfold parseIdentifier in H. rewrite Hpiece in H. discriminate.
Qed.

Lemma parseIdentifier_clean_witness :
  JsString.occurs "/" "ENG-123" = false /\ JsString.occurs "#" "ENG-123" = false.
Proof.
  apply (parseIdentifier_clean Sample.commentUrl "ENG-123"). reflexivity.
Defined.

(** ** Query parameters beyond the three *)

(** X14: the handler reads nothing of the query but webhookId,
    webhookToken and linearToken: a request with any other query that agrees
    on these three is handled in the same way. *)
Theorem query_other_keys_ignored (SCHEMA_safeParse : Js.Json -> option Schema.Event)
    (world : World) (req : Request) (q : gmap string Js.StringOrArray) :
  (forall key, key ∈ REQUIRED -> q !! key = query req !! key) ->
  handler SCHEMA_safeParse world (withQuery q req) = handler SCHEMA_safeParse world req.
Proof.
  intros Hsame.
  assert (Hq : QUERY_SCHEMA_parse q = QUERY_SCHEMA_parse (query req)).
  { unfold QUERY_SCHEMA_parse.
    rewrite (Hsame "webhookId"), (Hsame "webhookToken"), (Hsame "linearToken");
      [reflexivity | | |]; unfold REQUIRED; repeat constructor. }
  unfold handler, attempt, withQuery. simpl. now rewrite Hq.
Qed.

Lemma query_other_keys_ignored_witness :
  handler SchemaModel.safeParse Sample.production
    (withQuery Sample.withExtraParameter Sample.issueForKong)
  = handler SchemaModel.safeParse Sample.production Sample.issueForKong.
Proof.
  apply (query_other_keys_ignored SchemaModel.safeParse Sample.production
           Sample.issueForKong Sample.withExtraParameter).
  intros key Hkey. unfold REQUIRED in Hkey.
  repeat (apply elem_of_cons in Hkey as [->|Hkey]; [reflexivity|]).
  now apply elem_of_nil in Hkey.
Defined.

(** ** The mention rule on issue events *)

Lemma expected_plain who actor :
  Js.OBJECT_PROTOTYPE !! User.displayName who = None ->
  expectedContent (Some who) actor = mentionRule who actor.
Proof.
  intros Hplain. unfold expectedContent, mentionRule.
  destruct (String.eqb (User.id who) (User.id actor)); [reflexivity|].
  destruct (mappedId (User.displayName who)); [reflexivity|].
  now rewrite Hplain.
Qed.

(** X15: for an issue event with a recipe whose lookups resolve, whose
    values the chat library accepts, and whose assignee has a display name
    that is not the name of a member of [Object.prototype], the content of
    the one dispatch follows the mention rule: nothing when the assignee is
    the actor or the display name is not in the table, the greeting and the
    mention of the mapped id otherwise. *)
Theorem issue_mention_rule (SCHEMA_safeParse : Js.Json -> option Schema.Event)
    (world : World) (req : Request) (c : Credentials)
    (action : Schema.Action) (createdAt url : string)
    (data : Schema.IssueData) (updatedFrom : option Schema.UpdatedFrom)
    (actor who : User.t) (ref : Schema.AssigneeRef) (piece : string) :
  admitted world req -> hasCredentials req c -> linearToken c <> "" ->
  SCHEMA_safeParse (body req)
  = Some (Schema.IssueEvent action createdAt url data updatedFrom) ->
  handled (Schema.IssueEvent action createdAt url data updatedFrom) = true ->
  recipeAccepted world (Schema.IssueEvent action createdAt url data updatedFrom) ->
  linearUser world (linearToken c) (Schema.creatorId data) = inr actor ->
  Schema.assignee data = Some ref ->
  linearUser world (linearToken c) (Schema.assignee_id ref) = inr who ->
  JsString.split "/" url !! 5 = Some piece ->
  Js.OBJECT_PROTOTYPE !! User.displayName who = None ->
  exists msg,
    last (fst (handler SCHEMA_safeParse world req))
    = Some (dispatched world (webhookUrlOf c) msg)
    /\ content msg = mentionRule who actor.
Proof.
  intros Hadm Hc Hkey Hevent Hh Hacc Hactor Href Hwho Hpiece Hplain.
  destruct (issue_mention SCHEMA_safeParse world req c action createdAt url data
              updatedFrom actor piece Hadm Hc Hkey Hevent Hh Hacc Hactor Hpiece)
    as [Hsome _].
  destruct (Hsome ref who Href Hwho) as (msg & Htrace & Hcontent).
  exists msg. split.
  - rewrite Htrace. reflexivity.
  - rewrite Hcontent, content_expected. now apply expected_plain.
Qed.

Lemma issue_mention_rule_witness :
  exists msg,
    last (fst (handler SchemaModel.safeParse Sample.production Sample.issueForKong))
    = Some (dispatched Sample.production "https://discord.com/api/webhooks/1042/s3cr3t" msg)
    /\ content msg = Some "ðŸ‘‹ <@152805815097491456>".
Proof.
  apply (issue_mention_rule SchemaModel.safeParse Sample.production
           Sample.issueForKong Sample.credentials Schema.CREATE
           "2022-03-01T10:00:00.000Z" Sample.issueUrl
           (Schema.mkIssueData "u-aki" "Fix login" (Schema.mkTeam "ENG" "Engineering")
              (Schema.mkState "Todo" "#e2e2e2")
              (Some (Schema.mkAssigneeRef "u-kong")) None)
           None Sample.aki Sample.kong (Schema.mkAssigneeRef "u-kong") "ENG-123");
    try reflexivity; try discriminate.
  - apply sample_admitted.
  - apply sample_hasCredentials.
Defined.

(** ** What the refusals mean *)

Lemma QUERY_SCHEMA_parse_throws (q : gmap string Js.StringOrArray) issues :
  QUERY_SCHEMA_parse q = throw (ZodError issues) ->
  exists key, key ∈ REQUIRED /\ ~ isString (q !! key).
Proof.
  intros H. unfold REQUIRED.
  destruct (isString_dec (q !! "webhookId")) as [[i Hi]|Hi];
    [|exists "webhookId"; split; [repeat constructor | exact Hi]].
  destruct (isString_dec (q !! "webhookToken")) as [[t Ht]|Ht];
    [|exists "webhookToken"; split; [repeat constructor | exact Ht]].
  destruct (isString_dec (q !! "linearToken")) as [[l Hl]|Hl];
    [|exists "linearToken"; split; [repeat constructor | exact Hl]].
  unfold QUERY_SCHEMA_parse in H. rewrite Hi, Ht, Hl in H. discriminate.
Qed.

(** X16: the three refusals are given for their own reason only: 405
    exactly for a method other than POST; 403 exactly for a POST outside
    development mode whose forwarded-for header is not a single allow-listed
    address; 400 exactly for an admitted request in which one of the three
    query parameters is not a string. *)
Theorem refusal_meaning (SCHEMA_safeParse : Js.Json -> option Schema.Event)
    (world : World) (req : Request) :
  (statusCode (snd (handler SCHEMA_safeParse world req)) = 405
   <-> method req <> Some "POST")
  /\ (statusCode (snd (handler SCHEMA_safeParse world req)) = 403
      <-> isPost req /\ ~ development world /\ ~ trustedCaller req)
  /\ (statusCode (snd (handler SCHEMA_safeParse world req)) = 400
      <-> admitted world req
          /\ exists key, key ∈ REQUIRED /\ ~ isString (query req !! key)).
Proof.
  pose proof (handler_answer SCHEMA_safeParse world req) as H.
  split; [|split]; split.
  - intros Hs. destruct (handler SCHEMA_safeParse world req) as [t r]; simpl in *.
    inversion H; subst; simpl in Hs; try discriminate. assumption.
  - intros Hm. unfold handler. now rewrite attempt_not_post.
  - intros Hs. destruct (handler SCHEMA_safeParse world req) as [t r]; simpl in *.
    inversion H; subst; simpl in Hs; try discriminate. auto.
  - intros (Hpost & Hdev & Hip). unfold handler. now rewrite attempt_refused.
  - intros Hs. destruct (handler SCHEMA_safeParse world req) as [t r]; simpl in *.
    inversion H; subst; simpl in Hs; try discriminate.
    split; [assumption|]. eapply QUERY_SCHEMA_parse_throws; eauto.
  - intros (Hadm & Hbad). unfold handler.
    rewrite attempt_admitted by exact Hadm.
    now rewrite QUERY_SCHEMA_parse_issues.
Qed.


(** ** What the chat library and the tracker's client refuse *)

Lemma no_dispatch_in_enrich world c event lookups result :
  enrich world c event = (lookups, result) -> dispatches lookups = [].
Proof.
  intros H. apply dispatches_none. intros o Ho. eapply enriched_no_fetch; eauto.
Qed.

(** X17: a created issue whose state has an empty name is never
    announced: the field list is refused after the creator lookup, the
    assignee is not looked up, and the answer is 500 with the generic
    message. *)
Theorem unnamed_state_500 (SCHEMA_safeParse : Js.Json -> option Schema.Event)
    (world : World) (req : Request) (c : Credentials)
    (createdAt url : string) (data : Schema.IssueData)
    (updatedFrom : option Schema.UpdatedFrom) :
  admitted world req -> hasCredentials req c ->
  SCHEMA_safeParse (body req)
  = Some (Schema.IssueEvent Schema.CREATE createdAt url data updatedFrom) ->
  Schema.state_name (Schema.state data) = "" ->
  snd (handler SCHEMA_safeParse world req) = genericFailure
  /\ fst (handler SCHEMA_safeParse world req)
     = if decide (linearToken c = "") then []
       else [outcome (LinearUser (linearToken c) (Schema.creatorId data))
               (linearUser world (linearToken c) (Schema.creatorId data))].
Proof.
  intros Hadm Hc Hevent Hname.
  assert (Hfail : exists description,
             enrich world c (Schema.IssueEvent Schema.CREATE createdAt url data updatedFrom)
             = (if decide (linearToken c = "") then []
                else [outcome (LinearUser (linearToken c) (Schema.creatorId data))
                        (linearUser world (linearToken c) (Schema.creatorId data))],
                inl (OtherError description))).
  { destruct (decide (linearToken c = "")) as [Hkey|Hkey].
    - now apply enrich_without_key.
    - rewrite (enrich_classify _ _ _ Hkey).
      unfold classify. rewrite CREATE_decided. unfold issueCreated.
      destruct (linearUser world (linearToken c) (Schema.creatorId data)) as [reason|actor].
      + rewrite bind_rejected. eauto.
      + rewrite bind_resolved. unfold parseIdentifier.
        destruct (JsString.split "/" url !! 5) as [piece|].
        * destruct (JsString.split "#" piece) as [|first rest];
            rewrite bind_ret, Hname;
            change ("[" +:+ Schema.team_name (Schema.team data) +:+ "]("
                    +:+ (LINEAR_BASE_URL +:+ "/team/"
                         +:+ Schema.team_key (Schema.team data)) +:+ ")")
              with ("[" +:+ (Schema.team_name (Schema.team data)
                             +:+ "](https://linear.app/team/"
                             +:+ Schema.team_key (Schema.team data) +:+ ")"));
            rewrite addFields_unnamed_status; simpl; eauto.
        * rewrite bind_throw. simpl. eauto. }
  destruct Hfail as [description Hfail].
  rewrite (handler_enrich_failed _ _ _ c _ _ _ Hadm Hc Hevent Hfail). auto.
Qed.

Lemma unnamed_state_500_witness :
  snd (handler SchemaModel.safeParse Sample.production Sample.issueWithUnnamedState)
  = genericFailure
  /\ fst (handler SchemaModel.safeParse Sample.production Sample.issueWithUnnamedState)
     = [Resolved (LinearUser "lin_api_key" "u-aki")].
Proof.
  apply (unnamed_state_500 SchemaModel.safeParse Sample.production
           Sample.issueWithUnnamedState Sample.credentials
           "2022-03-01T10:00:00.000Z" Sample.issueUrl
           (Schema.mkIssueData "u-aki" "Fix login" (Schema.mkTeam "ENG" "Engineering")
              (Schema.mkState "" "#e2e2e2") None None)
           None);
    try reflexivity.
  - apply sample_admitted.
  - apply sample_hasCredentials.
Defined.

(** With a color that does not resolve, the recipe of a status change
    never comes to an end. *)
Lemma statusChanged_refused world apiKey url data st failure :
  Embed.resolveColor (random world) (Schema.state_color (Schema.state data)) = inl failure ->
  within 2 (lookupWith apiKey) (fun _ : Locals => False)
    (issueStatusChanged world apiKey url data st).
Proof.
  intros Hcolor. unfold issueStatusChanged.
  eapply (within_bind 1 1 2); [apply within_user | intros actor _ | lia].
  eapply (within_bind 0 1 1); [apply within_parseIdentifier | intros identifier _ | lia].
  eapply (within_bind 1 0 1) with (Q1 := fun _ => True); [|intros who _|lia].
  - destruct (Schema.assignee data) as [ref|].
    + eapply (within_bind 1 0 1); [apply within_user | intros who _ | lia].
      now apply within_ret.
    + now apply within_ret.
  - eapply (within_bind 0 0 0); [apply within_built | intros emb He | lia].
    unfold Embed.setColor in He. rewrite Hcolor in He. discriminate.
Qed.

(** X18: a status change whose state color the chat library cannot
    resolve is never announced: the answer is 500 with the generic message
    and nothing is dispatched. *)
Theorem unresolved_color_500 (SCHEMA_safeParse : Js.Json -> option Schema.Event)
    (world : World) (req : Request) (c : Credentials)
    (createdAt url : string) (data : Schema.IssueData)
    (updatedFrom : option Schema.UpdatedFrom) (failure : Embed.Failure) :
  admitted world req -> hasCredentials req c ->
  SCHEMA_safeParse (body req)
  = Some (Schema.IssueEvent Schema.UPDATE createdAt url data updatedFrom) ->
  Schema.statusChanged updatedFrom = true ->
  Embed.resolveColor (random world) (Schema.state_color (Schema.state data)) = inl failure ->
  snd (handler SCHEMA_safeParse world req) = genericFailure
  /\ dispatches (fst (handler SCHEMA_safeParse world req)) = [].
Proof.
  intros Hadm Hc Hevent Hchanged Hcolor.
  assert (Hfail : exists lookups description,
             enrich world c (Schema.IssueEvent Schema.UPDATE createdAt url data updatedFrom)
             = (lookups, inl (OtherError description))).
  { pose proof (quiet_enrich world c
                  (Schema.IssueEvent Schema.UPDATE createdAt url data updatedFrom))
      as (_ & Hthrown & _).
    destruct (enrich world c _) as [lookups [e|st]] eqn:Henrich; simpl in Hthrown.
    - destruct (Hthrown e eq_refl) as [description ->]. eauto.
    - exfalso.
      destruct (decide (linearToken c = "")) as [Hkey|Hkey].
      + destruct (enrich_without_key world c
                    (Schema.IssueEvent Schema.UPDATE createdAt url data updatedFrom) Hkey)
          as [d Hd]. congruence.
      + rewrite (enrich_classify _ _ _ Hkey) in Henrich.
        unfold classify in Henrich.
        destruct (decide (Schema.UPDATE = Schema.CREATE)) as [Heq|_]; [discriminate|].
        rewrite bool_decide_eq_true_2 in Henrich by reflexivity.
        rewrite Hchanged in Henrich. simpl andb in Henrich. cbv iota in Henrich.
        destruct (statusChanged_refused world (linearToken c) url data
                    (initialLocals
                       (Schema.IssueEvent Schema.UPDATE createdAt url data updatedFrom))
                    failure Hcolor) as (_ & _ & Hnever).
        rewrite Henrich in Hnever. exact (Hnever st eq_refl). }
  destruct Hfail as (lookups & description & Hfail).
  rewrite (handler_enrich_failed _ _ _ c _ _ _ Hadm Hc Hevent Hfail). simpl.
  split; [reflexivity | eapply no_dispatch_in_enrich; eauto].
Qed.

Lemma unresolved_color_500_witness :
  snd (handler SchemaModel.safeParse Sample.production Sample.movedToRed) = genericFailure
  /\ dispatches (fst (handler SchemaModel.safeParse Sample.production Sample.movedToRed))
     = [].
Proof.
  apply (unresolved_color_500 SchemaModel.safeParse Sample.production
           Sample.movedToRed Sample.credentials
           "2022-03-01T10:00:00.000Z" Sample.issueUrl
           (Schema.mkIssueData "u-aki" "Fix login" (Schema.mkTeam "ENG" "Engineering")
              (Schema.mkState "Done" "red") None None)
           (Some (Schema.mkUpdatedFrom (Some "state-todo")))
           (Embed.TypeError "COLOR_CONVERT"));
    try reflexivity.
  - apply sample_admitted.
  - apply sample_hasCredentials.
Defined.

(** X19: with an empty linearToken the tracker's client is not built: a
    validated event, with or without a recipe, is answered with 500 and the
    generic message, and no call is made. *)
Theorem empty_linearToken_500 (SCHEMA_safeParse : Js.Json -> option Schema.Event)
    (world : World) (req : Request) (c : Credentials) (event : Schema.Event) :
  admitted world req -> hasCredentials req c ->
  SCHEMA_safeParse (body req) = Some event ->
  linearToken c = "" ->
  handler SCHEMA_safeParse world req = ([], genericFailure).
Proof.
  intros Hadm Hc Hevent Hkey.
  destruct (enrich_without_key world c event Hkey) as [description Hfail].
  exact (handler_enrich_failed _ _ _ c _ _ _ Hadm Hc Hevent Hfail).
Qed.

Lemma empty_linearToken_500_witness :
  handler SchemaModel.safeParse Sample.production Sample.titleEditedWithoutKey
  = ([], genericFailure).
Proof.
  apply (empty_linearToken_500 SchemaModel.safeParse Sample.production
           Sample.titleEditedWithoutKey (mkCredentials "1042" "s3cr3t" "")
           (Schema.IssueEvent Schema.UPDATE "2022-03-01T10:00:00.000Z" Sample.issueUrl
              (Schema.mkIssueData "u-aki" "Fix login" (Schema.mkTeam "ENG" "Engineering")
                 (Schema.mkState "Todo" "#e2e2e2") None None)
              (Some (Schema.mkUpdatedFrom None))));
    try reflexivity.
  - split; [reflexivity|]. right. exists "35.231.147.226".
    split; [reflexivity | apply list_elem_of_here].
  - repeat split.
Defined.
